(** * More-Recipes: the recipe controller, embedded and verified

    Shallow embedding of [server/controllers/recipes.js] (class [Recipe]:
    [createRecipe], [modifyRecipe], [deleteRecipe], [getRecipe],
    [getUserRecipes], [getAllRecipes]) together with the Sequelize model
    definitions of [Recipe] and [User].

    Promise chains are written in a small monad over the world (relational
    store plus image directory) that also records the trace of effects a
    request issues: store operations, [fs.unlink] calls, notifier calls,
    calls into the search module and responses. *)

From Stdlib Require Import ZArith NArith String Ascii List.
From stdpp Require Import gmap strings list.

Open Scope Z_scope.

(** ** JavaScript strings *)

(** A JS string is a sequence of UTF-16 code units. *)
Abbreviation jsstring := (list N).

Definition lit (s : string) : jsstring :=
  map N_of_ascii (list_ascii_of_string s).
Arguments lit : simpl never.

(** The characters matched by [\s] in a JS regular expression. *)
Definition is_space (c : N) : bool :=
  ((9 <=? c) && (c <=? 13) || (c =? 32) || (c =? 160) || (c =? 5760)
   || (8192 <=? c) && (c <=? 8202) || (c =? 8232) || (c =? 8233)
   || (c =? 8239) || (c =? 8287) || (c =? 12288) || (c =? 65279))%N.

(** [s.replace(/\s+/g, ' ')]: every maximal run of white space becomes one
    space. *)
Fixpoint collapse_spaces (in_run : bool) (s : jsstring) : jsstring :=
  match s with
  | [] => []
  | c :: s' =>
      if is_space c
      then (if in_run then collapse_spaces true s'
            else 32%N :: collapse_spaces true s')
      else c :: collapse_spaces false s'
  end.

(** [trimWhiteSpaces = param => (param || '').replace(/\s+/g, ' ')];
    [None] is [undefined]. *)
Definition trimWhiteSpaces (param : option jsstring) : jsstring :=
  collapse_spaces false (default [] param).

(** Truthiness of a string-or-undefined value. *)
Definition truthy (v : option jsstring) : bool :=
  match v with
  | Some (_ :: _) => true
  | _ => false
  end.
Arguments truthy : simpl never.

(** A template literal renders [null] as the text "null". *)
Definition render (v : option jsstring) : jsstring :=
  default (lit "null") v.

(** [s.match(/suffix$/)] for a literal suffix. *)
Definition ends_with (suffix s : jsstring) : bool :=
  bool_decide (drop (length s - length suffix)%nat s = suffix).

(** ** Data model *)

(** The [Recipe] table.  [vpvotes] and [downvotes] are declared by the model
    ([INTEGER], [allowNull: true], [defaultValue: 0]); the model spells the
    upvote column [vpvotes].  [userId] is the [belongsTo] foreign key.
    [description], [imageUrl] and [viewCount] are the columns the controller
    reads and writes; [ingredients] holds the normalized text the controller
    passes.  The timestamps of a recipe are left out. *)
Record RecipeRow := mkRecipeRow {
  userId : option Z;
  name : jsstring;
  description : jsstring;
  ingredients : jsstring;
  direction : option jsstring;
  imageUrl : option jsstring;
  viewCount : Z;
  vpvotes : option Z;
  downvotes : option Z
}.

Record UserRow := mkUserRow {
  user_name : jsstring;
  username : jsstring;
  email : jsstring;
  password : jsstring;
  user_updatedAt : Z
}.

Record FavoriteRow := mkFavoriteRow {
  fav_userId : Z;
  fav_recipeId : Z
}.

(** The relational store: the three tables and the id sequence of the
    recipe table. *)
Record Store := mkStore {
  recipes : gmap Z RecipeRow;
  users : gmap Z UserRow;
  favorites : list FavoriteRow;
  serial : Z
}.

(** The world a request runs against: the store and the files on disk. *)
Record World := mkWorld {
  db : Store;
  files : gset jsstring
}.

(** The attributes of the owner eagerly loaded with a recipe:
    [include: [{ model: models.User, attributes: ['name', 'updatedAt'] }]]. *)
Record Owner := mkOwner {
  owner_name : jsstring;
  owner_updatedAt : Z
}.

(** A recipe instance as handed to the controller. *)
Record Instance := mkInstance {
  inst_id : Z;
  inst_row : RecipeRow;
  inst_User : option Owner
}.

(** The fields [recipe.create] receives. *)
Record CreateFields := mkCreateFields {
  cf_name : jsstring;
  cf_description : jsstring;
  cf_ingredients : jsstring;
  cf_direction : jsstring;
  cf_imageUrl : jsstring;
  cf_userId : Z
}.

(** The fields [recipe.update] receives. *)
Record UpdateFields := mkUpdateFields {
  uf_name : jsstring;
  uf_description : jsstring;
  uf_ingredients : jsstring;
  uf_imageUrl : option jsstring;
  uf_direction : option jsstring
}.

(** The counters of a recipe: the columns [viewCount], [vpvotes] (the
    upvotes) and [downvotes]. *)
Inductive Counter := ViewCount | Upvotes | Downvotes.

(** Operations sent to the store. *)
Inductive StoreOp :=
| OpFindById (id : Z)
| OpFindOne (id : Z)
| OpFindAll
| OpFindByUser (uid : Z)
| OpCreate (f : CreateFields)
| OpUpdate (id : Z) (f : UpdateFields)
| OpDestroy (id : Z)
| OpFavorites (id : Z)
| OpIncrement (id : Z) (c : Counter)
| OpReload (id : Z).

Definition mutating (op : StoreOp) : bool :=
  match op with
  | OpCreate _ | OpUpdate _ _ | OpDestroy _ | OpIncrement _ _ => true
  | _ => false
  end.

(** The methods of the search module ([./searchRecipe]). *)
Inductive SearchMethod :=
| sortMostUpvotes
| searchByIngredients
| searchByName
| searchAll.

(** ** Responses *)

Inductive Message :=
| Fixed (text : string)
| NoMatchingRecipe (recipeId : Z)
| Dynamic (text : jsstring).

Inductive Payload :=
| NoRecipe
| Created (r : Instance)
| UpdatedRows (rs : list Instance)
| Loaded (r : Instance)
| Listing (rs : list Instance).

Record Response := mkResponse {
  status : Z;
  success : bool;
  message : Message;
  recipe : Payload
}.

(** ** Effects *)

Inductive Event :=
| EStore (op : StoreOp) (ok : bool)
| EUnlink (path : jsstring)
| EUpload (path : jsstring)
| ENotify (recipients : list jsstring) (subject body : string)
| ESearch (m : SearchMethod)
| ERespond (r : Response).

(** Outcome of a promise. *)
Inductive Outcome (A : Type) :=
| Resolved (a : A)
| Rejected.
Arguments Resolved {A} a.
Arguments Rejected {A}.

Definition M (A : Type) : Type := World -> Outcome A * World * list Event.

Definition ret {A} (a : A) : M A := fun w => (Resolved a, w, []).

Definition reject {A} : M A := fun w => (Rejected, w, []).

Definition bind {A B} (m : M A) (k : A -> M B) : M B :=
  fun w =>
    match m w with
    | (Resolved a, w1, t1) =>
        match k a w1 with
        | (o, w2, t2) => (o, w2, t1 ++ t2)
        end
    | (Rejected, w1, t1) => (Rejected, w1, t1)
    end.

(** [p.catch(handler)] *)
Definition catch {A} (m : M A) (handler : M A) : M A :=
  fun w =>
    match m w with
    | (Resolved a, w1, t1) => (Resolved a, w1, t1)
    | (Rejected, w1, t1) =>
        match handler w1 with
        | (o, w2, t2) => (o, w2, t1 ++ t2)
        end
    end.

(** A promise started inside a callback and not returned from it: the
    callback goes on, and a rejection of the promise is handled by nobody. *)
Definition detached (m : M unit) : M unit :=
  fun w =>
    match m w with
    | (_, w1, t1) => (Resolved tt, w1, t1)
    end.

Definition emit (e : Event) : M unit := fun w => (Resolved tt, w, [e]).

Declare Scope promise_scope.
Delimit Scope promise_scope with promise.
Notation "x <- m ;; k" := (bind m (fun x => k))
  (at level 100, m at next level, right associativity) : promise_scope.
Notation "m ;; k" := (bind m (fun _ => k))
  (at level 100, right associativity) : promise_scope.
Open Scope promise_scope.

(** [res.status(code).json({ success, message, recipe })] *)
Definition respond (code : Z) (ok : bool) (msg : Message) (p : Payload)
  : M unit :=
  emit (ERespond (mkResponse code ok msg p)).

(** The response a client receives: the first one written. *)
Fixpoint response_of (t : list Event) : option Response :=
  match t with
  | [] => None
  | ERespond r :: _ => Some r
  | _ :: t' => response_of t'
  end.

(** ** Requests *)

(** The file part of a multipart request; [filename] is the name multer
    generates for the stored file. *)
Record IncomingFile := mkIncomingFile {
  originalname : jsstring;
  file_size : Z;                     (* file.size *)
  filename : jsstring
}.

(** A parsed query-string value. *)
Inductive QueryValue :=
| QString (s : jsstring)
| QArray (items : list jsstring)
| QObject (fields : list (jsstring * jsstring)).

Record Query := mkQuery {
  q_sort : option QueryValue;
  q_order : option QueryValue;
  q_ingredients : option QueryValue;
  q_recipes : option QueryValue;
  q_search : option QueryValue
}.

(** A request as the handlers see it.  A text field of the body is the
    string multer builds for it, [None] when the field is absent; a repeated
    or bracketed field name, for which multer builds an array or an object,
    is not represented. *)
Record Request := mkRequest {
  user_id : Z;                        (* req.user.id *)
  param_recipeId : Z;                 (* req.params.recipeId *)
  body_name : option jsstring;
  body_description : option jsstring;
  body_ingredients : option jsstring;
  body_direction : option jsstring;
  attachment : option IncomingFile;
  query : Query
}.

(** [v === 'text'] on a query value. *)
Definition is_text (v : option QueryValue) (text : string) : bool :=
  match v with
  | Some (QString s) => bool_decide (s = lit text)
  | _ => false
  end.

(** Truthiness of a query value: arrays and objects are truthy, a string is
    truthy unless empty, [undefined] is not. *)
Definition carries (v : option QueryValue) : bool :=
  match v with
  | None => false
  | Some (QString []) => false
  | Some _ => true
  end.

(** [+x]: numeric coercion of a nullable integer column; [+null] is 0. *)
Definition unary_plus (v : option Z) : Z := default 0 v.

(** [x || 0] on a number. *)
Definition or_zero (x : Z) : Z := if x =? 0 then 0 else x.

(** ** Pure store semantics *)

Definition owner_of (s : Store) (r : RecipeRow) : option Owner :=
  uid ← userId r;
  u ← users s !! uid;
  Some (mkOwner (user_name u) (user_updatedAt u)).

Definition with_owner (s : Store) (p : Z * RecipeRow) : Instance :=
  mkInstance p.1 p.2 (owner_of s p.2).

(** The row [recipe.create] inserts.  [vpvotes] and [downvotes] take the
    [defaultValue: 0] the model declares.  The column [viewCount] is not in
    the model file; it starts at 0, as the specification has it ("view count
    (non-negative integer, default 0)"). *)
Definition new_row (f : CreateFields) : RecipeRow :=
  {| userId := Some (cf_userId f);
     name := cf_name f;
     description := cf_description f;
     ingredients := cf_ingredients f;
     direction := Some (cf_direction f);
     imageUrl := Some (cf_imageUrl f);
     viewCount := 0;
     vpvotes := Some 0;
     downvotes := Some 0 |}.

(** [UPDATE ... SET] of the given attributes; an [undefined] value is left
    out of the statement. *)
Definition set_fields (f : UpdateFields) (r : RecipeRow) : RecipeRow :=
  {| userId := userId r;
     name := uf_name f;
     description := uf_description f;
     ingredients := uf_ingredients f;
     direction := match uf_direction f with
                  | Some d => Some d
                  | None => direction r
                  end;
     imageUrl := uf_imageUrl f;
     viewCount := viewCount r;
     vpvotes := vpvotes r;
     downvotes := downvotes r |}.

(** [SET c = c + 1]; a null counter stays null. *)
Definition bump (c : Counter) (r : RecipeRow) : RecipeRow :=
  {| userId := userId r;
     name := name r;
     description := description r;
     ingredients := ingredients r;
     direction := direction r;
     imageUrl := imageUrl r;
     viewCount := match c with ViewCount => viewCount r + 1 | _ => viewCount r end;
     vpvotes := match c with Upvotes => Z.succ <$> vpvotes r | _ => vpvotes r end;
     downvotes := match c with Downvotes => Z.succ <$> downvotes r | _ => downvotes r end |}.

Definition with_recipes (s : Store) (rs : gmap Z RecipeRow) : Store :=
  mkStore rs (users s) (favorites s) (serial s).

Definition store_create (f : CreateFields) (s : Store)
  : option (Instance * Store) :=
  match recipes s !! serial s with
  | Some _ => None
  | None =>
      Some (mkInstance (serial s) (new_row f) None,
            mkStore (<[serial s := new_row f]> (recipes s)) (users s)
                    (favorites s) (serial s + 1))
  end.

(** [recipe.update(values, { where: { id }, returning: true })] resolves to
    [[count, rows]]; the second component is returned here. *)
Definition store_update (id : Z) (f : UpdateFields) (s : Store)
  : option (list Instance * Store) :=
  match recipes s !! id with
  | Some r =>
      Some ([mkInstance id (set_fields f r) None],
            with_recipes s (<[id := set_fields f r]> (recipes s)))
  | None => Some ([], s)
  end.

(** Modelled from the spec: the cascade declared by the Favorite model, which
    is not part of the sources.  "Favorite rows are owned jointly by the
    referenced User and Recipe; deleting either deletes the Favorite." *)
Definition cascade_favorites (id : Z) (favs : list FavoriteRow)
  : list FavoriteRow :=
  filter (fun fv => fav_recipeId fv ≠ id) favs.

(** [recipe.destroy({ where: { id } })] *)
Definition store_destroy (id : Z) (s : Store) : option (unit * Store) :=
  Some (tt, mkStore (delete id (recipes s)) (users s)
                    (cascade_favorites id (favorites s)) (serial s)).

Definition store_increment (id : Z) (c : Counter) (s : Store)
  : option (unit * Store) :=
  Some (tt, with_recipes s (alter (bump c) id (recipes s))).

(** [favorite.findAll({ attributes: ['userId'], where: { recipeId },
    include: [{ model: models.User, attributes: ['email'] }] })]: each row
    with the email of its user, [None] when the user is missing. *)
Definition store_favorites (id : Z) (s : Store)
  : list (Z * option jsstring) :=
  map (fun fv => (fav_userId fv, email <$> users s !! fav_userId fv))
      (filter (fun fv => fav_recipeId fv = id) (favorites s)).

(** [rows.map(user => user.User.email)]: the emails in row order; reading
    [email] of a missing user throws ([None]). *)
Fixpoint project_emails (rows : list (Z * option jsstring))
  : option (list jsstring) :=
  match rows with
  | [] => Some []
  | (_, Some e) :: rest =>
      match project_emails rest with
      | Some es => Some (e :: es)
      | None => None
      end
  | (_, None) :: _ => None
  end.

Definition all_instances (s : Store) : list Instance :=
  map (with_owner s) (map_to_list (recipes s)).

Definition user_instances (uid : Z) (s : Store) : list Instance :=
  filter (fun i => userId (inst_row i) = Some uid) (all_instances s).

(** ** The controller *)

Inductive UploadResult :=
| UploadError (message : jsstring)
| UploadDone (file : option jsstring).

Section Controller.

(** [process.env.NODE_ENV === 'production'] *)
Variable production : bool.

(** Which store operations the database rejects (connectivity, constraint
    violations) while the request is served. *)
Variable rejects : StoreOp -> bool.

(** [validate.validateRecipeDetails(name, ingredients, direction, recipeId)]
    from [../middleware/validate]: the error message, or a falsy value. *)
Variable validateRecipeDetails :
  jsstring -> jsstring -> option jsstring -> option Z -> option jsstring.

Definition folder : jsstring :=
  if production then lit "build" else lit "public".

(** [`client/${folder}/${imageUrl}`] *)
Definition client_path (imageUrl : option jsstring) : jsstring :=
  lit "client/" ++ folder ++ lit "/" ++ render imageUrl.

(** *** Store adapter *)

Definition store_op {A} (op : StoreOp) (run : Store -> option (A * Store))
  : M A :=
  fun w =>
    if rejects op then (Rejected, w, [EStore op false])
    else match run (db w) with
         | Some (a, s') => (Resolved a, mkWorld s' (files w), [EStore op true])
         | None => (Rejected, w, [EStore op false])
         end.

Definition select {A} (op : StoreOp) (read : Store -> A) : M A :=
  store_op op (fun s => Some (read s, s)).

Definition findById (id : Z) : M (option Instance) :=
  select (OpFindById id)
        (fun s => (fun r => mkInstance id r None) <$> recipes s !! id).

Definition findOne (id : Z) : M (option Instance) :=
  select (OpFindOne id)
        (fun s => (fun r => with_owner s (id, r)) <$> recipes s !! id).

Definition findAll : M (list Instance) := select OpFindAll all_instances.

Definition findAllByUser (uid : Z) : M (list Instance) :=
  select (OpFindByUser uid) (user_instances uid).

Definition create (f : CreateFields) : M Instance :=
  store_op (OpCreate f) (store_create f).

Definition update (id : Z) (f : UpdateFields) : M (list Instance) :=
  store_op (OpUpdate id f) (store_update id f).

Definition destroy (id : Z) : M unit :=
  store_op (OpDestroy id) (store_destroy id).

Definition findFavorites (id : Z) : M (list (Z * option jsstring)) :=
  select (OpFavorites id) (store_favorites id).

(** [instance.increment(field)] resolves to the instance. *)
Definition increment (i : Instance) (c : Counter) : M Instance :=
  store_op (OpIncrement (inst_id i) c) (store_increment (inst_id i) c) ;;
  ret i.

(** [instance.reload()] reads the row again with the options of the
    original query; it rejects when the row is gone. *)
Definition reload (i : Instance) : M Instance :=
  store_op (OpReload (inst_id i))
    (fun s => (fun r => (with_owner s (inst_id i, r), s))
                <$> recipes s !! inst_id i).

(** *** File system *)

(** [fs.unlink(path, () => {})]: an error is ignored. *)
Definition unlink (path : jsstring) : M unit :=
  fun w => (Resolved tt, mkWorld (db w) (files w ∖ {[path]}), [EUnlink path]).

(** [fileFilter]: [file.originalname.match(/\.(jpg|jpeg|png)$/)] *)
Definition fileFilter (f : IncomingFile) : bool :=
  ends_with (lit ".jpg") (originalname f)
  || ends_with (lit ".jpeg") (originalname f)
  || ends_with (lit ".png") (originalname f).

(** [upload = multer({ dest, limits: { fileSize: 204800, files: 1 },
    fileFilter }).single('image')]: a file the filter accepts and that is
    within the size limit is stored under [`client/${folder}/recipes`];
    the callback receives the error otherwise. *)
Definition upload (req : Request) : M UploadResult :=
  match attachment req with
  | None => ret (UploadDone None)
  | Some f =>
      if negb (fileFilter f)
      then ret (UploadError (lit "Only Images are allowed !"))
      else if 204800 <? file_size f
      then ret (UploadError (lit "File too large"))
      else
        fun w =>
          let path := client_path (Some (lit "recipes/" ++ filename f)) in
          (Resolved (UploadDone (Some (filename f))),
           mkWorld (db w) (files w ∪ {[path]}), [EUpload path])
  end.

(** *** Handlers *)

Definition createRecipe (req : Request) : M unit :=
  up <- upload req ;;
  match up with
  | UploadError msg => respond 400 false (Dynamic msg) NoRecipe
  | UploadDone file =>
      let filePath :=
        match file with
        | Some fname => lit "recipes/" ++ fname
        | None => lit "null"
        end in
      let name := trimWhiteSpaces (body_name req) in
      let description := trimWhiteSpaces (body_description req) in
      let ingredients := trimWhiteSpaces (body_ingredients req) in
      let direction := trimWhiteSpaces (body_direction req) in
      let validateRecipeError :=
        validateRecipeDetails name ingredients (Some direction) None in
      if truthy validateRecipeError
      then respond 400 false (Dynamic (default [] validateRecipeError))
                   NoRecipe
      else
        catch
          (createdRecipe <-
             create (mkCreateFields name description ingredients direction
                                    filePath (user_id req)) ;;
           respond 201 true (Fixed "New Recipe created")
                   (Created createdRecipe))
          (respond 500 false (Fixed "Error Creating Recipe") NoRecipe)
  end.

(** [foundUsers.map(user => user.User.email)] *)
Definition emails_of (foundUsers : list (Z * option jsstring))
  : M (list jsstring) :=
  match project_emails foundUsers with
  | Some userEmails => ret userEmails
  | None => reject
  end.

(** In [modifyRecipe], [uploaded] is the variable [imageUrl] after the
    upload, [image] the same variable when the record is written, and
    [requester] is [userId]. *)
Definition modifyRecipe (req : Request) : M unit :=
  up <- upload req ;;
  match up with
  | UploadError msg => respond 400 false (Dynamic msg) NoRecipe
  | UploadDone file =>
      let uploaded := (fun fname => lit "recipes/" ++ fname) <$> file in
      let requester := user_id req in
      let recipeId := or_zero (param_recipeId req) in
      let name := trimWhiteSpaces (body_name req) in
      let description := trimWhiteSpaces (body_description req) in
      let ingredients := trimWhiteSpaces (body_ingredients req) in
      let direction := body_direction req in
      let validateRecipeError :=
        validateRecipeDetails name ingredients direction (Some recipeId) in
      if truthy validateRecipeError
      then respond 400 false (Dynamic (default [] validateRecipeError))
                   NoRecipe
      else
        catch
          (recipeFound <- findById recipeId ;;
           match recipeFound with
           | None =>
               respond 404 false (NoMatchingRecipe recipeId) NoRecipe
           | Some found =>
               if negb (unary_plus (userId (inst_row found)) =? requester)
               then
                 unlink (client_path uploaded) ;;
                 respond 401 false
                   (Fixed "You cannot modify a recipe not created by You!")
                   NoRecipe
               else
                 image <-
                   (if negb (truthy uploaded)
                    then ret (imageUrl (inst_row found))
                    else
                      unlink (client_path (imageUrl (inst_row found))) ;;
                      ret uploaded) ;;
                 detached
                   (result <-
                      update recipeId
                        (mkUpdateFields name description ingredients
                                        image direction) ;;
                    detached
                      (foundUsers <- findFavorites recipeId ;;
                       userEmails <- emails_of foundUsers ;;
                       emit (ENotify userEmails "Favorite Recipe Modified"
                               "One of your favorite recipes has been modified") ;;
                       respond 201 true (Fixed "Recipe record updated")
                               (UpdatedRows result)))
           end)
          (respond 500 false (Fixed "Error Modifying Recipe") NoRecipe)
  end.

Definition deleteRecipe (req : Request) : M unit :=
  let recipeId := param_recipeId req in
  let requester := user_id req in
  catch
    (recipeFound <- findById recipeId ;;
     match recipeFound with
     | None => respond 404 false (NoMatchingRecipe recipeId) NoRecipe
     | Some found =>
         let image := imageUrl (inst_row found) in
         if negb (unary_plus (userId (inst_row found)) =? requester)
         then respond 401 false (Fixed "You cannot delete this recipe")
                      NoRecipe
         else
           detached
             (destroy recipeId ;;
              unlink (client_path image) ;;
              respond 205 true (Fixed "Recipe Deleted!") NoRecipe)
     end)
    (respond 500 false (Fixed "Error Deleting Recipe") NoRecipe).

(** In [getRecipe] the first callback returns [res] when no recipe is
    found; the next callback then calls [reload] on it, which throws. *)
Definition getRecipe (req : Request) : M unit :=
  let recipeId := param_recipeId req in
  catch
    (recipeFound <- findOne recipeId ;;
     recipesFound <-
       match recipeFound with
       | None =>
           respond 404 false (NoMatchingRecipe recipeId) NoRecipe ;;
           ret None
       | Some found => i <- increment found ViewCount ;; ret (Some i)
       end ;;
     recipeLoaded <-
       match recipesFound with
       | Some i => reload i
       | None => reject
       end ;;
     respond 201 true (Fixed "Recipe found") (Loaded recipeLoaded))
    (respond 500 false (Fixed "Unable to fetch recipes") NoRecipe).

(** [findAll] resolves to an array, which is truthy, so the
    [if (!foundRecipes)] branch (404) is never taken. *)
Definition getUserRecipes (req : Request) : M unit :=
  catch
    (foundRecipes <- findAllByUser (user_id req) ;;
     respond 201 true (Fixed "User Recipes found") (Listing foundRecipes))
    (respond 500 false (Fixed "Unable to get user recipes") NoRecipe).

(** A call into the search module: [newSearch.method(req, res)]. *)
Definition search (m : SearchMethod) : M unit := emit (ESearch m).

Definition getAllRecipes (req : Request) : M unit :=
  if is_text (q_sort (query req)) "upvotes"
     && is_text (q_order (query req)) "descending"
  then search sortMostUpvotes
  else if carries (q_ingredients (query req))
  then search searchByIngredients
  else if carries (q_recipes (query req))
  then search searchByName
  else if carries (q_search (query req))
  then search searchAll
  else
    catch
      (foundRecipes <- findAll ;;
       respond 201 true (Fixed "Recipes found") (Listing foundRecipes))
      (respond 500 false (Fixed "Unable to fetch recipes") NoRecipe).

(** Modelled from the spec: the vote handler, whose controller is not part
    of the sources.  Vote Tally, [applyVote(recipeId, direction)]: looks up
    the recipe and fails with NotFound ([None]) if absent; increments the
    corresponding counter with the store's atomic increment; the record is
    fetched again and the counter pair returned. *)
Definition applyVote (recipeId : Z) (c : Counter)
  : M (option (option Z * option Z)) :=
  recipeFound <- findById recipeId ;;
  match recipeFound with
  | None => ret None
  | Some found =>
      i <- increment found c ;;
      loaded <- reload i ;;
      ret (Some (vpvotes (inst_row loaded), downvotes (inst_row loaded)))
  end.

End Controller.

(** Modelled from the spec: the delivery made by [notify.default] of
    [../services/notify], which is not part of the sources.  "Emits one
    notification per address with the given subject/body"; "set semantics
    over recipients - no duplicate sends to the same address even if
    somehow favorited twice". *)
Definition deliveries (recipients : list jsstring) (subject body : string)
  : list (jsstring * string * string) :=
  map (fun a => (a, subject, body)) (remove_dups recipients).

(** Modelled from the spec: [validate.validateRecipeDetails] of
    [../middleware/validate], which is not part of the sources.  "validates
    required fields (name, ingredients, direction non-empty ...)"; the text of
    the messages is not given. *)
Definition requiredFields (name ingredients : jsstring)
  (direction : option jsstring) (recipeId : option Z) : option jsstring :=
  if bool_decide (name = []) then Some (lit "name is required")
  else if bool_decide (ingredients = []) then Some (lit "ingredients is required")
  else if negb (truthy direction) then Some (lit "direction is required")
  else None.

(** ** Observations on a run *)

Definition run (m : M unit) (w : World) : World * list Event :=
  match m w with
  | (_, w', t) => (w', t)
  end.

Definition trace (m : M unit) (w : World) : list Event := (run m w).2.
Definition final (m : M unit) (w : World) : World := (run m w).1.
Definition response (m : M unit) (w : World) : option Response :=
  response_of (trace m w).

(** ** Discovery strategies *)

Inductive Strategy := MostUpvoted | Ingredient | Name | Keyword | Default.

(** The strategy an effect belongs to: a call into the search module, or the
    unfiltered listing query of the controller. *)
Definition strategy_of (e : Event) : option Strategy :=
  match e with
  | ESearch sortMostUpvotes => Some MostUpvoted
  | ESearch searchByIngredients => Some Ingredient
  | ESearch searchByName => Some Name
  | ESearch searchAll => Some Keyword
  | EStore OpFindAll _ => Some Default
  | _ => None
  end.

Definition strategies_run (t : list Event) : list Strategy :=
  omap strategy_of t.

(** The selector as the specification words it: a priority-ordered list of
    conditions, the first matching one wins, the default strategy
    otherwise. *)
Definition priorities : list ((Query -> bool) * Strategy) :=
  [ (fun q => is_text (q_sort q) "upvotes" && is_text (q_order q) "descending",
     MostUpvoted);
    (fun q => carries (q_ingredients q), Ingredient);
    (fun q => carries (q_recipes q), Name);
    (fun q => carries (q_search q), Keyword) ].

Fixpoint first_match (ps : list ((Query -> bool) * Strategy)) (q : Query)
  : Strategy :=
  match ps with
  | [] => Default
  | (condition, s) :: rest => if condition q then s else first_match rest q
  end.

Definition selected (q : Query) : Strategy := first_match priorities q.

(** What the selected strategy does, as far as the controller decides it. *)
Definition strategy_effects (rejects : StoreOp -> bool) (s : Strategy)
  (w : World) : list Event :=
  match s with
  | MostUpvoted => [ESearch sortMostUpvotes]
  | Ingredient => [ESearch searchByIngredients]
  | Name => [ESearch searchByName]
  | Keyword => [ESearch searchAll]
  | Default =>
      if rejects OpFindAll
      then [EStore OpFindAll false;
            ERespond (mkResponse 500 false (Fixed "Unable to fetch recipes")
                                 NoRecipe)]
      else [EStore OpFindAll true;
            ERespond (mkResponse 201 true (Fixed "Recipes found")
                                 (Listing (all_instances (db w))))]
  end.

(** ** Operations of the engagement facade *)

Inductive Operation :=
| CreateRecipe
| ModifyRecipe
| DeleteRecipe
| GetRecipe
| GetUserRecipes
| GetAllRecipes
| Vote (c : Counter).

Record Env := mkEnv {
  env_production : bool;
  env_rejects : StoreOp -> bool;
  env_validate :
    jsstring -> jsstring -> option jsstring -> option Z -> option jsstring
}.

Definition handle (e : Env) (op : Operation) (req : Request) : M unit :=
  match op with
  | CreateRecipe =>
      createRecipe (env_production e) (env_rejects e) (env_validate e) req
  | ModifyRecipe =>
      modifyRecipe (env_production e) (env_rejects e) (env_validate e) req
  | DeleteRecipe => deleteRecipe (env_production e) (env_rejects e) req
  | GetRecipe => getRecipe (env_rejects e) req
  | GetUserRecipes => getUserRecipes (env_rejects e) req
  | GetAllRecipes => getAllRecipes (env_rejects e) req
  | Vote c => applyVote (env_rejects e) (param_recipeId req) c ;; ret tt
  end.

(** Worlds the operations can produce, starting without recipes. *)
Inductive reachable : World -> Prop :=
| reachable_init w : recipes (db w) = ∅ -> reachable w
| reachable_step e op req w :
    reachable w -> reachable (final (handle e op req) w).

(** ** Predicates on traces *)

Definition is_notify (e : Event) : bool :=
  match e with ENotify _ _ _ => true | _ => false end.

Definition notifications (t : list Event) : nat :=
  length (List.filter is_notify t).

Definition is_mutation (e : Event) : bool :=
  match e with EStore op _ => mutating op | _ => false end.

Definition issues_no_mutation (t : list Event) : Prop :=
  Forall (fun e => is_mutation e = false) t.

(** Every notifier call in the trace comes after a committed update of the
    recipe [id]. *)
Definition notify_follows_commit (id : Z) (t : list Event) : Prop :=
  forall t1 rs sub body t2,
    t = t1 ++ ENotify rs sub body :: t2 ->
    exists f, EStore (OpUpdate id f) true ∈ t1.

(** All deliveries made during a run. *)
Definition deliveries_in (t : list Event) : list (jsstring * string * string) :=
  flat_map (fun e => match e with
                     | ENotify rs sub body => deliveries rs sub body
                     | _ => []
                     end) t.

(** The addresses of the users who favorited a recipe, one per Favorite
    row, and how many distinct ones there are. *)
Definition favoriter_emails (s : Store) (id : Z) : list jsstring :=
  omap snd (store_favorites id s).

Definition distinct_addresses (s : Store) (id : Z) : nat :=
  size (list_to_set (favoriter_emails s id) : gset jsstring).

(** The upload step lets the request through. *)
Definition upload_accepts (req : Request) : bool :=
  match attachment req with
  | None => true
  | Some f => fileFilter f && negb (204800 <? file_size f)
  end.

(** The vote counters of a row are non-negative integers. *)
Definition row_counters_ok (r : RecipeRow) : Prop :=
  exists u d, vpvotes r = Some u /\ downvotes r = Some d /\ 0 <= u /\ 0 <= d.

(** The same for every recipe of the store. *)
Definition counters_ok (s : Store) : Prop :=
  forall id r, recipes s !! id = Some r -> row_counters_ok r.

(** [m] keeps the store property [P]. *)
Definition preserves {A} (P : Store -> Prop) (m : M A) : Prop :=
  forall w, P (db w) -> P (db (m w).1.2).

(** The store serves the three operations of a single-recipe read. *)
Definition answers_view (rejects : StoreOp -> bool) (id : Z) : Prop :=
  rejects (OpFindOne id) = false
  /\ rejects (OpIncrement id ViewCount) = false
  /\ rejects (OpReload id) = false.

(** The world after one counted view of recipe [id]. *)
Definition viewed (id : Z) (w : World) : World :=
  mkWorld (with_recipes (db w) (alter (bump ViewCount) id (recipes (db w))))
          (files w).

Definition no_faults : StoreOp -> bool := fun _ => false.

(** ** Sample data *)

Module Sample.

Definition ann : UserRow :=
  mkUserRow (lit "Ann") (lit "ann") (lit "ann@example.com") (lit "secret1") 10.

Definition bob : UserRow :=
  mkUserRow (lit "Bob") (lit "bob") (lit "bob@example.com") (lit "secret2") 20.

(** Recipe 5, owned by user 1, with a stored image. *)
Definition jollof : RecipeRow :=
  mkRecipeRow (Some 1) (lit "Jollof") (lit "party rice") (lit "rice, oil")
              (Some (lit "fry, then boil")) (Some (lit "recipes/old"))
              3 (Some 0) (Some 0).

Definition old_image : jsstring := lit "client/public/recipes/old".

(** User 2 favorited recipe 5. *)
Definition store : Store :=
  mkStore {[ 5 := jollof ]} {[ 1 := ann; 2 := bob ]} [mkFavoriteRow 2 5] 6.

(** The same, with a second Favorite row of user 2 for recipe 5. *)
Definition store_twice : Store :=
  mkStore {[ 5 := jollof ]} {[ 1 := ann; 2 := bob ]}
          [mkFavoriteRow 2 5; mkFavoriteRow 2 5] 6.

Definition world : World := mkWorld store {[ old_image ]}.
Definition world_twice : World := mkWorld store_twice {[ old_image ]}.

Definition no_query : Query := mkQuery None None None None None.

(** [?sort=upvotes&order=descending&search=foo] *)
Definition sorted_and_search : Query :=
  mkQuery (Some (QString (lit "upvotes"))) (Some (QString (lit "descending")))
          None None (Some (QString (lit "foo"))).

Definition fields (user recipeId : Z) (name : option jsstring)
  (file : option IncomingFile) : Request :=
  mkRequest user recipeId name (Some (lit "party rice"))
            (Some (lit "rice,  oil")) (Some (lit "fry, then boil")) file
            no_query.

Definition png : IncomingFile :=
  mkIncomingFile (lit "photo.png") 1000 (lit "new").

Definition gif : IncomingFile :=
  mkIncomingFile (lit "photo.gif") 1000 (lit "new").

(** The owner updates recipe 5 and uploads a new image. *)
Definition owner_update : Request := fields 1 5 (Some (lit "Jollof rice")) (Some png).

(** The owner updates recipe 5 without a file. *)
Definition owner_edit : Request := fields 1 5 (Some (lit "Jollof rice")) None.

(** User 2 sends an update of recipe 5 with a file that is not an image. *)
Definition stranger_gif : Request := fields 2 5 (Some (lit "Mine now")) (Some gif).

(** User 2 sends a well-formed update of recipe 5. *)
Definition stranger_update : Request := fields 2 5 (Some (lit "Mine now")) None.

(** A create request without a name and without a file. *)
Definition nameless : Request := fields 1 0 None None.

(** A create request without a file. *)
Definition plain_create : Request := fields 1 0 (Some (lit "Moi moi")) None.

Definition reject_updates (op : StoreOp) : bool :=
  match op with
  | OpUpdate _ _ => true
  | _ => false
  end.

End Sample.

(** ** Further observations *)

(** A text in which every white-space character is a single U+0020 that
    does not follow another white-space character; [after_space] tells
    whether the character before the text is white space. *)
Fixpoint single_spaced (after_space : bool) (s : jsstring) : bool :=
  match s with
  | [] => true
  | c :: s' =>
      if is_space c
      then (c =? 32)%N && negb after_space && single_spaced true s'
      else single_spaced false s'
  end.

(** The characters of a text that are not white space. *)
Definition visible (s : jsstring) : jsstring :=
  List.filter (fun c => negb (is_space c)) s.

(** The extensions [fileFilter] lets through. *)
Definition image_extensions : list jsstring :=
  [lit ".jpg"; lit ".jpeg"; lit ".png"].

(** Where [upload] stores an accepted file. *)
Definition upload_path (production : bool) (f : IncomingFile) : jsstring :=
  client_path production (Some (lit "recipes/" ++ filename f)).

(** The fields [createRecipe] hands to [recipe.create]. *)
Definition created_fields (req : Request) : CreateFields :=
  mkCreateFields (trimWhiteSpaces (body_name req))
                 (trimWhiteSpaces (body_description req))
                 (trimWhiteSpaces (body_ingredients req))
                 (trimWhiteSpaces (body_direction req))
                 (match attachment req with
                  | Some f => lit "recipes/" ++ filename f
                  | None => lit "null"
                  end)
                 (user_id req).


(** The responses written during a run, in order. *)
Definition responses (t : list Event) : list Response :=
  omap (fun e => match e with ERespond r => Some r | _ => None end) t.

(** The fields [modifyRecipe] hands to [recipe.update] for the recipe found
    as row [r]. *)
Definition updated_fields (req : Request) (r : RecipeRow) : UpdateFields :=
  mkUpdateFields (trimWhiteSpaces (body_name req))
                 (trimWhiteSpaces (body_description req))
                 (trimWhiteSpaces (body_ingredients req))
                 (match attachment req with
                  | Some f => Some (lit "recipes/" ++ filename f)
                  | None => imageUrl r
                  end)
                 (body_direction req).

(** The handlers of the controller class. *)
Inductive Handler :=
| HCreateRecipe
| HModifyRecipe
| HDeleteRecipe
| HGetRecipe
| HGetUserRecipes
| HGetAllRecipes.

Definition operation_of (h : Handler) : Operation :=
  match h with
  | HCreateRecipe => CreateRecipe
  | HModifyRecipe => ModifyRecipe
  | HDeleteRecipe => DeleteRecipe
  | HGetRecipe => GetRecipe
  | HGetUserRecipes => GetUserRecipes
  | HGetAllRecipes => GetAllRecipes
  end.

Definition serve (e : Env) (h : Handler) (req : Request) : M unit :=
  handle e (operation_of h) req.

(** The write a handler may send to the store for a request, as a relation
    between the store before and after. *)
Definition handler_write (h : Handler) (req : Request) (s s' : Store) : Prop :=
  let id := param_recipeId req in
  match h with
  | HCreateRecipe =>
      exists i, store_create (created_fields req) s = Some (i, s')
  | HModifyRecipe =>
      exists r rows,
        recipes s !! id = Some r /\ unary_plus (userId r) = user_id req
        /\ store_update id (updated_fields req r) s = Some (rows, s')
  | HDeleteRecipe =>
      exists r,
        recipes s !! id = Some r /\ unary_plus (userId r) = user_id req
        /\ store_destroy id s = Some (tt, s')
  | HGetRecipe =>
      exists r,
        recipes s !! id = Some r
        /\ store_increment id ViewCount s = Some (tt, s')
  | HGetUserRecipes | HGetAllRecipes => False
  end.

(** A response whose [success] flag and payload agree with its status. *)
Definition well_formed (r : Response) : Prop :=
  status r ∈ [201; 205; 400; 401; 404; 500]
  /\ (success r = true <-> status r = 201 \/ status r = 205)
  /\ (success r = false -> recipe r = NoRecipe).

(** * Properties *)

(** ** Basic facts *)

Lemma or_zero_id x : or_zero x = x.
Proof. unfold or_zero. destruct (Z.eqb_spec x 0); congruence. Qed.

Lemma uploaded_truthy fname : truthy (Some (lit "recipes/" ++ fname)) = true.
Proof. reflexivity. Qed.

Lemma truthy_undefined : truthy None = false.
Proof. reflexivity. Qed.

#[local] Opaque lit.

(** ** Tactics *)

Ltac unfold_controller :=
  unfold response, trace, final, run, handle,
    createRecipe, modifyRecipe, deleteRecipe, getRecipe, getUserRecipes,
    getAllRecipes, applyVote, upload, findById, findOne, findAll,
    findAllByUser, create, update, destroy, findFavorites, increment, reload,
    emails_of,
    select, store_op, unlink, respond, search, emit, catch, detached, bind,
    ret, reject in *;
  cbn beta in *; rewrite ?or_zero_id, ?uploaded_truthy in *.

(** Rewrite with the equations at hand, so that a scrutinee whose value is
    known is not split again. *)
Ltac rewrite_known :=
  match goal with
  | H : ?lhs = _ |- _ =>
      lazymatch lhs with
      | context [match _ with _ => _ end] => fail
      | _ => progress (rewrite H in * )
      end
  end.

Ltac bool_facts :=
  repeat match goal with
    | H : negb _ = true |- _ => apply negb_true_iff in H
    | H : negb _ = false |- _ => apply negb_false_iff in H
    | H : _ && _ = true |- _ => apply andb_prop in H as [? ?]
    | H : _ || _ = false |- _ => apply orb_false_elim in H as [? ?]
    end.

Ltac split_cases :=
  repeat (cbn in *; rewrite ?uploaded_truthy, ?truthy_undefined in *;
          simplify_eq; bool_facts;
          try first [rewrite_known | case_match]).

Lemma owner_of_spec s r o :
  owner_of s r = Some o <->
  exists uid u, userId r = Some uid /\ users s !! uid = Some u
                /\ o = mkOwner (user_name u) (user_updatedAt u).
Proof.
  unfold owner_of. split.
  - intros H. destruct (userId r) as [uid|]; simpl in H; [|done].
    destruct (users s !! uid) as [u|] eqn:Hu; simpl in H; [|done].
    exists uid, u. by simplify_eq.
  - intros (uid & u & -> & Hu & ->). simpl. by rewrite Hu.
Qed.

Lemma all_instances_spec s i :
  i ∈ all_instances s <->
  exists id r, recipes s !! id = Some r /\ i = mkInstance id r (owner_of s r).
Proof.
  unfold all_instances. rewrite list_elem_of_fmap. split.
  - intros ([id r] & -> & Hin). apply elem_of_map_to_list in Hin.
    by exists id, r.
  - intros (id & r & Hr & ->). exists (id, r). split; [done|].
    by apply elem_of_map_to_list.
Qed.

Lemma all_instances_length s : length (all_instances s) = size (recipes s).
Proof.
  unfold all_instances. rewrite length_map. apply length_map_to_list.
Qed.

Lemma selected_cases q :
  selected q =
    if is_text (q_sort q) "upvotes" && is_text (q_order q) "descending"
    then MostUpvoted
    else if carries (q_ingredients q) then Ingredient
    else if carries (q_recipes q) then Name
    else if carries (q_search q) then Keyword
    else Default.
Proof. reflexivity. Qed.

(** ** Discovery *)

(** C1. For every discovery request exactly one strategy executes, the one
    selected by first-match-wins priority: Most-Upvoted when the request
    carries sort=upvotes and order=descending, otherwise Ingredient when it
    carries ingredients, otherwise Name when it carries recipes, otherwise
    Keyword when it carries search, otherwise the default listing, which
    answers with all recipes, each with its owner's name and last-update
    time.  A parameter is carried when its value is truthy. *)
Theorem getAllRecipes_first_match rejects req w :
  strategies_run (trace (getAllRecipes rejects req) w) = [selected (query req)]
  /\ trace (getAllRecipes rejects req) w
     = strategy_effects rejects (selected (query req)) w
  /\ length (all_instances (db w)) = size (recipes (db w))
  /\ forall i, i ∈ all_instances (db w) <->
       exists id r, recipes (db w) !! id = Some r
         /\ i = mkInstance id r
                  (uid ← userId r; u ← users (db w) !! uid;
                   Some (mkOwner (user_name u) (user_updatedAt u))).
Proof.
  split_and!.
  - rewrite selected_cases. unfold_controller.
    destruct (query req) as [qs qo qi qr qq].
    split_cases; reflexivity.
  - rewrite selected_cases. unfold_controller.
    destruct (query req) as [qs qo qi qr qq].
    split_cases; reflexivity.
  - apply all_instances_length.
  - intros i. apply all_instances_spec.
Qed.

(** The selector example of the specification: with both
    [sort=upvotes&order=descending] and [search=foo], only the Most-Upvoted
    strategy runs. *)
Example sorted_and_search_runs_most_upvoted rejects u id w :
  strategies_run
    (trace (getAllRecipes rejects
              (mkRequest u id None None None None None Sample.sorted_and_search))
           w)
  = [MostUpvoted].
Proof. reflexivity. Qed.

(** ** Ownership *)

(** A non-owner's update with a file that is not an image is answered 400 by
    the upload step, not 401. *)
Lemma non_owner_bad_upload_gets_400 :
  recipes (db Sample.world) !! param_recipeId Sample.stranger_gif
    = Some Sample.jollof
  /\ unary_plus (userId Sample.jollof) <> user_id Sample.stranger_gif
  /\ response (modifyRecipe false no_faults (fun _ _ _ _ => None)
                            Sample.stranger_gif) Sample.world
     = Some (mkResponse 400 false (Dynamic (lit "Only Images are allowed !"))
                        NoRecipe)
  /\ status <$> response (modifyRecipe false no_faults (fun _ _ _ _ => None)
                                       Sample.stranger_gif) Sample.world
     <> Some 401.
Proof.
  split_and!; [reflexivity | discriminate | vm_compute; reflexivity |].
  vm_compute. discriminate.
Qed.

(** C3 (amended). For every delete request, and every update request that
    passes the upload step and field validation, on a recipe found in the
    store whose userId differs from the requester's, the operation fails
    with 401 Unauthorized; an update request stopped by the upload step or
    by validation is answered 400 instead.  In every one of these cases no
    store mutation is issued and the store is left unchanged. *)
Theorem non_owner_is_unauthorized production rejects validate req w r :
  recipes (db w) !! param_recipeId req = Some r ->
  unary_plus (userId r) <> user_id req ->
  rejects (OpFindById (param_recipeId req)) = false ->
  let del := deleteRecipe production rejects req in
  let upd := modifyRecipe production rejects validate req in
  let validateRecipeError :=
    validate (trimWhiteSpaces (body_name req))
             (trimWhiteSpaces (body_ingredients req))
             (body_direction req) (Some (param_recipeId req)) in
  response del w
    = Some (mkResponse 401 false (Fixed "You cannot delete this recipe")
                       NoRecipe)
  /\ issues_no_mutation (trace del w)
  /\ db (final del w) = db w
  /\ (upload_accepts req = true -> truthy validateRecipeError = false ->
      response upd w
      = Some (mkResponse 401 false
                (Fixed "You cannot modify a recipe not created by You!")
                NoRecipe))
  /\ (upload_accepts req = false \/ truthy validateRecipeError = true ->
      status <$> response upd w = Some 400)
  /\ issues_no_mutation (trace upd w)
  /\ db (final upd w) = db w.
Proof.
  intros Hr Hne Hok. simpl.
  apply Z.eqb_neq in Hne.
  unfold issues_no_mutation, upload_accepts.
  split_and!; try intros Hup; try intros Hval;
    unfold_controller;
    split_cases; try congruence; try reflexivity;
    repeat constructor.
  all: destruct Hup; congruence.
Qed.

Lemma non_owner_is_unauthorized_witness :
  status <$> response (modifyRecipe false no_faults requiredFields
                                    Sample.stranger_update) Sample.world
  = Some 401.
Proof.
  pose proof (non_owner_is_unauthorized false no_faults requiredFields
                Sample.stranger_update Sample.world Sample.jollof
                eq_refl ltac:(discriminate) eq_refl) as H.
  simpl in H. destruct H as (_ & _ & _ & H & _).
  rewrite (H eq_refl eq_refl). reflexivity.
Defined.

(** ** Image files *)

Lemma project_emails_omap rows es :
  project_emails rows = Some es ->
  es = omap snd rows /\ length es = length rows.
Proof.
  revert es. induction rows as [|[uid [e|]] rows IH]; intros es H; simpl in *.
  - by simplify_eq.
  - destruct (project_emails rows) as [es'|]; [|done].
    simplify_eq. destruct (IH es' eq_refl) as [-> Hlen].
    simpl. by rewrite Hlen.
  - done.
Qed.

(** C4. The owner of recipe 5 uploads a replacement image while the store
    rejects the update: [modifyRecipe] has already unlinked the old image
    when it issues the update, so the file is gone while the unchanged
    record still refers to it, and no response is written. *)
Theorem modify_unlinks_old_image_before_update :
  let upd := modifyRecipe false Sample.reject_updates requiredFields
                          Sample.owner_update in
  Sample.old_image ∈ files Sample.world
  /\ trace upd Sample.world
     = [ EUpload (lit "client/public/recipes/new");
         EStore (OpFindById 5) true;
         EUnlink Sample.old_image;
         EStore (OpUpdate 5 (mkUpdateFields (lit "Jollof rice")
                               (lit "party rice") (lit "rice, oil")
                               (Some (lit "recipes/new"))
                               (Some (lit "fry, then boil"))))
                false ]
  /\ (Sample.old_image ∉ files (final upd Sample.world))
  /\ recipes (db (final upd Sample.world)) !! 5 = Some Sample.jollof
  /\ imageUrl Sample.jollof = Some (lit "recipes/old")
  /\ response upd Sample.world = None.
Proof.
  split_and!.
  - apply (bool_decide_unpack _). vm_compute. exact I.
  - vm_compute. reflexivity.
  - apply (bool_decide_unpack _). vm_compute. exact I.
  - vm_compute. reflexivity.
  - reflexivity.
  - vm_compute. reflexivity.
Qed.

(** The same holds for every accepted update of a recipe by its owner that
    carries a file: the old image is unlinked before the update is issued,
    whether or not the update is then committed. *)
Lemma modify_unlink_precedes_update production rejects validate req w r f :
  attachment req = Some f ->
  upload_accepts req = true ->
  truthy (validate (trimWhiteSpaces (body_name req))
                   (trimWhiteSpaces (body_ingredients req))
                   (body_direction req) (Some (param_recipeId req))) = false ->
  rejects (OpFindById (param_recipeId req)) = false ->
  recipes (db w) !! param_recipeId req = Some r ->
  unary_plus (userId r) = user_id req ->
  exists fields committed rest,
    trace (modifyRecipe production rejects validate req) w
    = ([ EUpload (client_path production (Some (lit "recipes/" ++ filename f)));
         EStore (OpFindById (param_recipeId req)) true;
         EUnlink (client_path production (imageUrl r));
         EStore (OpUpdate (param_recipeId req) fields) committed ]
       ++ rest).
Proof.
  intros Hf Hup Hval Hok Hr Hown. apply Z.eqb_eq in Hown.
  unfold upload_accepts in Hup. rewrite Hf in Hup.
  unfold_controller.
  split_cases; try congruence; eexists _, _, _; reflexivity.
Qed.

(** [deleteRecipe] unlinks the image only after the destroy succeeded. *)
Lemma delete_unlinks_after_destroy production rejects req w t1 path t2 :
  trace (deleteRecipe production rejects req) w = t1 ++ EUnlink path :: t2 ->
  t1 = [ EStore (OpFindById (param_recipeId req)) true;
         EStore (OpDestroy (param_recipeId req)) true ].
Proof.
  unfold_controller. intros H.
  split_cases;
    repeat (destruct t1 as [|? t1]; simplify_eq/=); reflexivity.
Qed.

(** ** Notification of favoriters *)

Ltac peel_prefix t1 :=
  repeat (destruct t1 as [|? t1]; simplify_eq/=).

Ltac find_event H :=
  repeat (apply elem_of_cons in H as [H|H]; [try discriminate H|]);
  try (by apply elem_of_nil in H).

(** C5 (amended). Over all operations of the facade (create, update,
    delete, the reads, and the vote of the specification), the notifier is
    called at most once per request and only by a recipe update; it is
    called exactly once precisely when the update has been committed, the
    store then serves the query for the favoriters and every Favorite row
    has its user, which is also exactly when the update is answered 201; and
    a call never comes before the update of that recipe has been committed
    to the store. *)
Theorem notifier_called_once_after_commit_and_lookup e op req w :
  let t := trace (handle e op req) w in
  let id := param_recipeId req in
  (notifications t <= 1)%nat
  /\ (notifications t = 1%nat <->
      op = ModifyRecipe
      /\ (exists f, EStore (OpUpdate id f) true ∈ t)
      /\ env_rejects e (OpFavorites id) = false
      /\ is_Some (project_emails (store_favorites id (db w))))
  /\ (notifications t = 1%nat <->
      op = ModifyRecipe /\ status <$> response_of t = Some 201)
  /\ notify_follows_commit id t.
Proof.
  unfold notifications, notify_follows_commit, store_favorites.
  destruct op; unfold_controller; unfold store_update; split_cases;
    (split_and!;
     [ lia
     | split;
       [ intros ?; simplify_eq; split_and!;
         first [ reflexivity
               | assumption
               | solve [eexists; repeat first [left | right]]
               | solve [eexists; reflexivity] ]
       | intros (? & (? & Hin) & ? & [? ?]); simplify_eq;
         try reflexivity; try congruence; find_event Hin ]
     | split; [intros ?; simplify_eq | intros [? ?]; simplify_eq];
       try (split; reflexivity); try reflexivity
     | intros t1 rs sub body t2 Ht; peel_prefix t1;
       eexists; repeat first [left | right] ]).
Qed.

Lemma notifier_called_once_after_commit_and_lookup_witness :
  notifications
    (trace (handle (mkEnv false no_faults requiredFields) ModifyRecipe
                   Sample.owner_edit) Sample.world)
  = 1%nat.
Proof.
  destruct (notifier_called_once_after_commit_and_lookup
              (mkEnv false no_faults requiredFields) ModifyRecipe
              Sample.owner_edit Sample.world) as (_ & [_ called] & _).
  apply called.
  split_and!.
  - reflexivity.
  - eexists. vm_compute. right. left.
  - reflexivity.
  - vm_compute. by eexists.
Defined.

(** When the store commits the update but rejects the query for the
    favoriters, the request ends without notification and without
    response. *)
Lemma committed_update_with_failed_lookup :
  let lookup_fails op :=
    match op with OpFavorites _ => true | _ => false end in
  trace (modifyRecipe false lookup_fails requiredFields Sample.owner_edit)
        Sample.world
  = [ EStore (OpFindById 5) true;
      EStore (OpUpdate 5 (mkUpdateFields (lit "Jollof rice")
                            (lit "party rice") (lit "rice, oil")
                            (Some (lit "recipes/old"))
                            (Some (lit "fry, then boil"))))
             true;
      EStore (OpFavorites 5) false ].
Proof. vm_compute. reflexivity. Qed.

(** The owner's update of recipe 5 is committed (the stored name changes)
    while the store rejects the query for the favoriters: the notifier is
    not called, although user 2 favorited the recipe. *)
Lemma committed_update_without_notification :
  let lookup_fails op :=
    match op with OpFavorites _ => true | _ => false end in
  let e := mkEnv false lookup_fails requiredFields in
  let t := trace (handle e ModifyRecipe Sample.owner_edit) Sample.world in
  let after := final (handle e ModifyRecipe Sample.owner_edit) Sample.world in
  (exists f, EStore (OpUpdate 5 f) true ∈ t)
  /\ name <$> recipes (db Sample.world) !! 5 = Some (lit "Jollof")
  /\ name <$> recipes (db after) !! 5 = Some (lit "Jollof rice")
  /\ favoriter_emails (db Sample.world) 5 = [lit "bob@example.com"]
  /\ notifications t = 0%nat
  /\ notifications t <> 1%nat.
Proof.
  split_and!.
  - eexists. vm_compute. right. left.
  - vm_compute. reflexivity.
  - vm_compute. reflexivity.
  - vm_compute. reflexivity.
  - vm_compute. reflexivity.
  - vm_compute. discriminate.
Qed.

Lemma store_update_tables id f s rows s' :
  store_update id f s = Some (rows, s') ->
  users s' = users s /\ favorites s' = favorites s.
Proof.
  unfold store_update. intros H. destruct (recipes s !! id); by simplify_eq.
Qed.

Lemma store_favorites_tables id s s' :
  users s' = users s -> favorites s' = favorites s ->
  store_favorites id s' = store_favorites id s.
Proof. unfold store_favorites. by intros -> ->. Qed.

Lemma store_favorites_length id s :
  length (store_favorites id s)
  = length (filter (fun fv => fav_recipeId fv = id) (favorites s)).
Proof. unfold store_favorites. apply length_map. Qed.

Lemma deliveries_length recipients subject body :
  length (deliveries recipients subject body)
  = size (list_to_set recipients : gset jsstring).
Proof.
  unfold deliveries. rewrite length_map.
  rewrite <- (size_list_to_set (C := gset jsstring) (remove_dups recipients))
    by apply NoDup_remove_dups.
  f_equal. apply set_eq. intros a.
  by rewrite !elem_of_list_to_set, elem_of_remove_dups.
Qed.

Lemma deliveries_addresses recipients subject body :
  map (fun d => d.1.1) (deliveries recipients subject body)
  = remove_dups recipients.
Proof.
  unfold deliveries. rewrite map_map. simpl. apply map_id.
Qed.

(** An update that is answered 201 has been committed, and its favoriters
    have been looked up. *)
Lemma answered_update_was_committed production rejects validate req w :
  let upd := modifyRecipe production rejects validate req in
  let id := param_recipeId req in
  status <$> response upd w = Some 201 ->
  (exists f, EStore (OpUpdate id f) true ∈ trace upd w)
  /\ rejects (OpFavorites id) = false
  /\ is_Some (project_emails (store_favorites id (db w))).
Proof.
  unfold_controller. intros Hst. split_cases.
  all: match goal with
       | Hu : store_update _ _ _ = Some _, Hp : project_emails _ = Some _ |- _ =>
           apply store_update_tables in Hu as [Hus Hfs];
           rewrite (store_favorites_tables _ _ _ Hus Hfs) in Hp
       end.
  all: split_and!;
         [ eexists; repeat first [left | right]
         | first [assumption | reflexivity]
         | by eexists ].
Qed.

(** C6 (amended). For every recipe update that is committed and whose
    favoriters are then looked up successfully (the store serves the query
    and every Favorite row has its user), which covers every update
    answered 201, the notifier is called once with one address per Favorite
    row of the recipe, duplicates kept, and the number of deliveries equals
    the number of distinct addresses among the users who favorited the
    recipe: no address is delivered to twice, every favoriter's address is
    delivered to, and nothing is delivered when the recipe has no
    favoriters. *)
Theorem committed_update_delivers_to_distinct_addresses
  production rejects validate req w :
  let upd := modifyRecipe production rejects validate req in
  let t := trace upd w in
  let id := param_recipeId req in
  let rows := filter (fun fv => fav_recipeId fv = id) (favorites (db w)) in
  let recipients := favoriter_emails (db w) id in
  let subject := "Favorite Recipe Modified"%string in
  let body := "One of your favorite recipes has been modified"%string in
  (exists f, EStore (OpUpdate id f) true ∈ t) ->
  rejects (OpFavorites id) = false ->
  is_Some (project_emails (store_favorites id (db w))) ->
  List.filter is_notify t = [ENotify recipients subject body]
  /\ length recipients = length rows
  /\ deliveries_in t = deliveries recipients subject body
  /\ length (deliveries_in t) = distinct_addresses (db w) id
  /\ NoDup (map (fun d => d.1.1) (deliveries_in t))
  /\ (forall a, a ∈ map (fun d => d.1.1) (deliveries_in t) <-> a ∈ recipients)
  /\ (rows = [] -> deliveries_in t = [])
  /\ status <$> response upd w = Some 201.
Proof.
  intros upd t id rows recipients subject body.
  subst t upd. unfold_controller. intros [f Hin] Hrej [es Hes].
  split_cases; try (exfalso; find_event Hin; fail).
  all: subst id; try congruence.
  all: match goal with
       | Hu : store_update _ _ _ = Some _ |- _ =>
           apply store_update_tables in Hu as [Hus Hfs]
       end.
  all: try match goal with
       | Hp : project_emails _ = None |- _ =>
           rewrite (store_favorites_tables _ _ _ Hus Hfs) in Hp; congruence
       end.
  all: match goal with
       | Hp : project_emails _ = Some _ |- _ =>
           rewrite (store_favorites_tables _ _ _ Hus Hfs) in Hp;
           apply project_emails_omap in Hp as [-> Hl]
       end.
  all: rewrite app_nil_r.
  all: assert (Hcount : length recipients = length rows)
         by (subst recipients rows; unfold favoriter_emails; rewrite Hl;
             apply store_favorites_length).
  all: change (omap snd (store_favorites (param_recipeId req) (db _)))
         with recipients.
  all: split_and!;
         [ reflexivity
         | exact Hcount
         | reflexivity
         | apply deliveries_length
         | rewrite deliveries_addresses; apply NoDup_remove_dups
         | intros addr; rewrite deliveries_addresses; apply elem_of_remove_dups
         | intros Hrows; rewrite Hrows in Hcount;
           by rewrite (nil_length_inv _ Hcount)
         | reflexivity ].
Qed.

Lemma committed_update_delivers_to_distinct_addresses_witness :
  length (deliveries_in
            (trace (modifyRecipe false no_faults requiredFields
                                 Sample.owner_edit) Sample.world))
  = distinct_addresses (db Sample.world) 5.
Proof.
  refine (proj1 (proj2 (proj2 (proj2
    (committed_update_delivers_to_distinct_addresses false no_faults
       requiredFields Sample.owner_edit Sample.world _ _ _))))).
  - eexists. vm_compute. right. left.
  - reflexivity.
  - vm_compute. by eexists.
Defined.

(** With two Favorite rows of the same user for recipe 5, the notifier is
    handed the address twice and delivers to it once. *)
Lemma duplicate_favorite_is_delivered_once :
  let upd := modifyRecipe false no_faults requiredFields Sample.owner_edit in
  status <$> response upd Sample.world_twice = Some 201
  /\ favoriter_emails Sample.store_twice 5
     = [lit "bob@example.com"; lit "bob@example.com"]
  /\ List.filter is_notify (trace upd Sample.world_twice)
     = [ENotify [lit "bob@example.com"; lit "bob@example.com"]
                "Favorite Recipe Modified"
                "One of your favorite recipes has been modified"]
  /\ distinct_addresses Sample.store_twice 5 = 1%nat
  /\ length (deliveries_in (trace upd Sample.world_twice)) = 1%nat.
Proof. split_and!; vm_compute; reflexivity. Qed.

(** The owner's update of recipe 5 is committed while the store rejects
    the query for the favoriters: the recipe has one favoriter with one
    address, and nothing is delivered. *)
Lemma committed_update_delivers_nothing_when_lookup_fails :
  let lookup_fails op :=
    match op with OpFavorites _ => true | _ => false end in
  let upd := modifyRecipe false lookup_fails requiredFields Sample.owner_edit in
  let t := trace upd Sample.world in
  (exists f, EStore (OpUpdate 5 f) true ∈ t)
  /\ name <$> recipes (db (final upd Sample.world)) !! 5
     = Some (lit "Jollof rice")
  /\ List.filter is_notify t = []
  /\ distinct_addresses (db Sample.world) 5 = 1%nat
  /\ length (deliveries_in t) = 0%nat
  /\ length (deliveries_in t) <> distinct_addresses (db Sample.world) 5.
Proof.
  split_and!.
  - eexists. vm_compute. right. left.
  - vm_compute. reflexivity.
  - vm_compute. reflexivity.
  - vm_compute. reflexivity.
  - vm_compute. reflexivity.
  - vm_compute. discriminate.
Qed.

(** ** Views *)

Lemma getRecipe_run rejects req w r :
  recipes (db w) !! param_recipeId req = Some r ->
  answers_view rejects (param_recipeId req) ->
  let id := param_recipeId req in
  run (getRecipe rejects req) w
  = (viewed id w,
     [ EStore (OpFindOne id) true;
       EStore (OpIncrement id ViewCount) true;
       EStore (OpReload id) true;
       ERespond (mkResponse 201 true (Fixed "Recipe found")
                   (Loaded (with_owner (db (viewed id w))
                                       (id, bump ViewCount r)))) ]).
Proof.
  intros Hr (H1 & H2 & H3). unfold_controller. unfold store_increment.
  rewrite H1. cbn. rewrite Hr. cbn. rewrite H2. cbn. rewrite H3. cbn.
  rewrite lookup_alter_eq, Hr. reflexivity.
Qed.

Lemma viewed_lookup id w r :
  recipes (db w) !! id = Some r ->
  recipes (db (viewed id w)) !! id = Some (bump ViewCount r).
Proof. intros Hr. cbn. by rewrite lookup_alter_eq, Hr. Qed.

(** C7. For every existing recipe, a single-recipe read served by the store
    increments the view count of that recipe by exactly 1 and answers with
    the reloaded record, which shows the incremented count; a second read
    increments again, so two consecutive views give start+2.  Other
    recipes are not touched. *)
Theorem getRecipe_counts_every_view rejects req w r :
  recipes (db w) !! param_recipeId req = Some r ->
  answers_view rejects (param_recipeId req) ->
  let id := param_recipeId req in
  let view := getRecipe rejects req in
  let once := final view w in
  let twice := final view once in
  (exists loaded,
      response view w
      = Some (mkResponse 201 true (Fixed "Recipe found") (Loaded loaded))
      /\ inst_id loaded = id
      /\ recipes (db once) !! id = Some (inst_row loaded)
      /\ viewCount (inst_row loaded) = viewCount r + 1)
  /\ (exists loaded,
      response view once
      = Some (mkResponse 201 true (Fixed "Recipe found") (Loaded loaded))
      /\ recipes (db twice) !! id = Some (inst_row loaded)
      /\ viewCount (inst_row loaded) = viewCount r + 2)
  /\ (forall other, other <> id ->
        recipes (db once) !! other = recipes (db w) !! other).
Proof.
  intros Hr Hok id view once twice.
  pose proof (getRecipe_run rejects req w r Hr Hok) as Hrun1.
  pose proof (viewed_lookup _ _ _ Hr) as Hr1.
  assert (Honce : once = viewed id w).
  { subst once view. unfold final. by rewrite Hrun1. }
  pose proof (getRecipe_run rejects req (viewed id w) _ Hr1 Hok) as Hrun2.
  pose proof (viewed_lookup _ _ _ Hr1) as Hr2.
  assert (Htwice : twice = viewed id (viewed id w)).
  { subst twice. rewrite Honce. subst view. unfold final. by rewrite Hrun2. }
  split_and!.
  - eexists. unfold response, trace. subst view. rewrite Hrun1.
    split_and!; [reflexivity | reflexivity | by rewrite Honce | reflexivity].
  - eexists. rewrite Honce. unfold response, trace. subst view.
    rewrite Hrun2.
    split_and!; [reflexivity | by rewrite Htwice | cbn; lia].
  - intros other Hne. rewrite Honce. cbn. by apply lookup_alter_ne.
Qed.

Lemma getRecipe_counts_every_view_witness :
  viewCount <$>
    recipes (db (final (getRecipe no_faults (Sample.fields 2 5 None None))
                       (final (getRecipe no_faults (Sample.fields 2 5 None None))
                              Sample.world))) !! 5
  = Some 5.
Proof.
  destruct (getRecipe_counts_every_view no_faults (Sample.fields 2 5 None None)
              Sample.world Sample.jollof eq_refl
              (conj eq_refl (conj eq_refl eq_refl)))
    as (_ & (loaded & _ & Hl & Hv) & _).
  change (param_recipeId _) with 5 in Hl. rewrite Hl. simpl. by rewrite Hv.
Defined.

(** ** Validation *)

Lemma truthy_message v : truthy v = true -> v = Some (default [] v).
Proof. unfold truthy. by destruct v as [[|c s]|]. Qed.

(** A create request without a name is answered 400, not 403. *)
Lemma nameless_create_gets_400 :
  truthy (requiredFields (trimWhiteSpaces (body_name Sample.nameless))
            (trimWhiteSpaces (body_ingredients Sample.nameless))
            (Some (trimWhiteSpaces (body_direction Sample.nameless))) None)
  = true
  /\ status <$> response (createRecipe false no_faults requiredFields
                                       Sample.nameless) Sample.world
     = Some 400
  /\ status <$> response (createRecipe false no_faults requiredFields
                                       Sample.nameless) Sample.world
     <> Some 403.
Proof. split_and!; [vm_compute; reflexivity | vm_compute; reflexivity |]. vm_compute. discriminate. Qed.

(** C8 (amended). Every create or update request that fails field
    validation is answered with HTTP status 400 and [success: false], and no
    store operation is issued; when the upload step let the request through,
    the message is the one the validator returned. *)
Theorem invalid_fields_answer_400 production rejects validate req w :
  let name := trimWhiteSpaces (body_name req) in
  let ingredients := trimWhiteSpaces (body_ingredients req) in
  let create_error :=
    validate name ingredients (Some (trimWhiteSpaces (body_direction req)))
             None in
  let modify_error :=
    validate name ingredients (body_direction req)
             (Some (param_recipeId req)) in
  let created := createRecipe production rejects validate req in
  let modified := modifyRecipe production rejects validate req in
  (truthy create_error = true ->
     (exists msg,
        response created w = Some (mkResponse 400 false (Dynamic msg) NoRecipe)
        /\ (upload_accepts req = true -> create_error = Some msg))
     /\ db (final created w) = db w
     /\ Forall (fun e => forall op ok, e <> EStore op ok) (trace created w))
  /\ (truthy modify_error = true ->
     (exists msg,
        response modified w = Some (mkResponse 400 false (Dynamic msg) NoRecipe)
        /\ (upload_accepts req = true -> modify_error = Some msg))
     /\ db (final modified w) = db w
     /\ Forall (fun e => forall op ok, e <> EStore op ok) (trace modified w)).
Proof.
  unfold upload_accepts.
  split; intros Herr; unfold_controller; split_cases; try congruence;
    (split_and!;
     [ eexists; split; [reflexivity | intros; simplify_eq/=];
       repeat match goal with
         | H : _ = Some _ |- _ => rewrite H
         end; try reflexivity
     | reflexivity
     | repeat constructor; intros; discriminate ]).
  all: by apply truthy_message.
Qed.

Lemma invalid_fields_answer_400_witness :
  status <$> response (createRecipe false no_faults requiredFields
                                    Sample.nameless) Sample.world
  = Some 400.
Proof.
  destruct (invalid_fields_answer_400 false no_faults requiredFields
              Sample.nameless Sample.world) as [H _].
  destruct (H eq_refl) as ((msg & -> & _) & _). reflexivity.
Defined.

(** ** Image reference of a new recipe *)

(** C10. A recipe created from a request without an uploaded file is stored
    with [imageUrl] set to the four-character string "null"; every
    successfully created recipe has a non-null [imageUrl] string. *)
Theorem created_recipe_has_image_text production rejects validate req w resp :
  response (createRecipe production rejects validate req) w = Some resp ->
  status resp = 201 ->
  exists created text,
    recipe resp = Created created
    /\ recipes (db (final (createRecipe production rejects validate req) w))
         !! inst_id created = Some (inst_row created)
    /\ imageUrl (inst_row created) = Some text
    /\ text <> []
    /\ (attachment req = None ->
        text = lit "null" /\ length text = 4%nat
        /\ text = [110; 117; 108; 108]%N).
Proof.
  unfold_controller. unfold store_create. intros Hresp Hst.
  split_cases; eexists _, _; split_and!; try reflexivity;
    try (cbn; apply lookup_insert_eq); try done.
Qed.

Lemma created_recipe_has_image_text_witness :
  imageUrl <$>
    recipes (db (final (createRecipe false no_faults requiredFields
                                     Sample.plain_create) Sample.world)) !! 6
  = Some (Some (lit "null")).
Proof.
  eassert (Hresp : response (createRecipe false no_faults requiredFields
                               Sample.plain_create) Sample.world = Some _)
    by (vm_compute; reflexivity).
  destruct (created_recipe_has_image_text _ _ _ _ _ _ Hresp eq_refl)
    as (created & text & Hrec & Hrow & Himg & _ & Hnull).
  destruct (Hnull eq_refl) as (-> & _).
  injection Hrec as <-. change (inst_id _) with 6 in Hrow.
  rewrite Hrow. exact (f_equal Some Himg).
Defined.



(** ** Vote counters *)

Section Preservation.

Context {P : Store -> Prop}.

Lemma preserves_ret {A} (a : A) : preserves P (ret a).
Proof. by intros w. Qed.

Lemma preserves_reject {A} : preserves P (@reject A).
Proof. by intros w. Qed.

Lemma preserves_emit e : preserves P (emit e).
Proof. by intros w. Qed.

Lemma preserves_bind {A B} (m : M A) (k : A -> M B) :
  preserves P m -> (forall a, preserves P (k a)) -> preserves P (bind m k).
Proof.
  intros Hm Hk w Hw. unfold bind. specialize (Hm w Hw).
  destruct (m w) as [[[a|] w1] t1]; simpl in *; [|done].
  specialize (Hk a w1 Hm). by destruct (k a w1) as [[o w2] t2].
Qed.

Lemma preserves_catch {A} (m handler : M A) :
  preserves P m -> preserves P handler -> preserves P (catch m handler).
Proof.
  intros Hm Hh w Hw. unfold catch. specialize (Hm w Hw).
  destruct (m w) as [[[a|] w1] t1]; simpl in *; [done|].
  specialize (Hh w1 Hm). by destruct (handler w1) as [[o w2] t2].
Qed.

Lemma preserves_detached (m : M unit) :
  preserves P m -> preserves P (detached m).
Proof.
  intros Hm w Hw. unfold detached. specialize (Hm w Hw).
  by destruct (m w) as [[o w1] t1].
Qed.

Lemma preserves_store_op {A} rejects op (run : Store -> option (A * Store)) :
  (forall s a s', run s = Some (a, s') -> P s -> P s') ->
  preserves P (store_op rejects op run).
Proof.
  intros Hrun w Hw. unfold store_op. destruct (rejects op); [done|].
  destruct (run (db w)) as [[a s']|] eqn:Hr; [|done]. simpl. eauto.
Qed.

Lemma preserves_select {A} rejects op (read : Store -> A) :
  preserves P (select rejects op read).
Proof. apply preserves_store_op. intros s a s' H HP. by simplify_eq. Qed.

Lemma preserves_unlink path : preserves P (unlink path).
Proof. by intros w. Qed.

Lemma preserves_upload production req : preserves P (upload production req).
Proof.
  intros w Hw. unfold upload.
  destruct (attachment req) as [f|]; [|done].
  destruct (negb (fileFilter f)); [done|].
  by destruct (204800 <? file_size f).
Qed.

End Preservation.

Lemma bump_counters_ok c r : row_counters_ok r -> row_counters_ok (bump c r).
Proof.
  intros (u & d & Hu & Hd & ? & ?). unfold row_counters_ok.
  destruct c; simpl; rewrite Hu, Hd; simpl; eexists _, _;
    (split_and!; [reflexivity | reflexivity | lia | lia]).
Qed.

Lemma new_row_counters f :
  vpvotes (new_row f) = Some 0 /\ downvotes (new_row f) = Some 0.
Proof. by split. Qed.

Lemma store_create_counters f s i s' :
  store_create f s = Some (i, s') -> counters_ok s -> counters_ok s'.
Proof.
  unfold store_create. intros H Hs. destruct (recipes s !! serial s); [done|].
  simplify_eq. intros id r. simpl. rewrite lookup_insert.
  case_decide; [|by apply (Hs id r)]. intros ?; simplify_eq.
  exists 0, 0. by split_and!.
Qed.

Lemma store_update_counters id f s rows s' :
  store_update id f s = Some (rows, s') -> counters_ok s -> counters_ok s'.
Proof.
  unfold store_update. intros H Hs.
  destruct (recipes s !! id) as [r0|] eqn:Hr0; simplify_eq; [|done].
  intros id' r. simpl. rewrite lookup_insert.
  case_decide; [|by apply (Hs id' r)]. intros ?; simplify_eq.
  destruct (Hs _ _ Hr0) as (u & d & ? & ? & ? & ?). by exists u, d.
Qed.

Lemma store_destroy_counters id s u s' :
  store_destroy id s = Some (u, s') -> counters_ok s -> counters_ok s'.
Proof.
  unfold store_destroy. intros H Hs. simplify_eq. intros id' r. simpl.
  intros Hl. apply lookup_delete_Some in Hl as [_ Hl]. exact (Hs _ _ Hl).
Qed.

Lemma store_increment_counters id c s u s' :
  store_increment id c s = Some (u, s') -> counters_ok s -> counters_ok s'.
Proof.
  unfold store_increment. intros H Hs. simplify_eq. intros id' r. simpl.
  rewrite lookup_alter. case_decide as Heq; [subst id'|by apply (Hs id' r)].
  destruct (recipes s !! id) as [r0|] eqn:Hr0; simpl; [|done].
  intros ?; simplify_eq/=. apply bump_counters_ok. exact (Hs _ _ Hr0).
Qed.

Ltac keep_invariant :=
  repeat first
    [ apply preserves_ret | apply preserves_reject | apply preserves_emit
    | apply preserves_unlink | apply preserves_upload
    | apply preserves_select
    | apply preserves_detached | apply preserves_catch
    | apply preserves_bind; [|intros ?]
    | apply preserves_store_op; intros ? ? ? ?;
      first [ eapply store_create_counters; eassumption
            | eapply store_update_counters; eassumption
            | eapply store_destroy_counters; eassumption
            | eapply store_increment_counters; eassumption
            | intros; simplify_option_eq; assumption ]
    | match goal with
      | |- preserves _ (match ?x with _ => _ end) => destruct x
      | |- preserves _ (if ?b then _ else _) => destruct b
      end ].

Lemma handle_keeps_counters e op req :
  preserves counters_ok (handle e op req).
Proof.
  destruct op; unfold handle, createRecipe, modifyRecipe, deleteRecipe,
    getRecipe, getUserRecipes, getAllRecipes, applyVote, findById, findOne,
    findAll, findAllByUser, create, update, destroy, findFavorites,
    increment, reload, emails_of, respond, search; cbn zeta.
  all: keep_invariant.
Qed.

Lemma final_world (m : M unit) w : final m w = (m w).1.2.
Proof. unfold final, run. by destruct (m w) as [[o w'] t]. Qed.

Lemma reachable_counters_ok w : reachable w -> counters_ok (db w).
Proof.
  induction 1 as [w Hempty | e op req w Hw IH].
  - intros id r. rewrite Hempty. by rewrite lookup_empty.
  - rewrite final_world. by apply handle_keeps_counters.
Qed.

(** The vote scenario of the specification: recipe 5 with 3 upvotes and 1
    downvote has 4 and 1 after an upvote. *)
Example upvote_scenario :
  let r := mkRecipeRow (Some 1) (lit "Jollof") [] (lit "rice") None None 0
                       (Some 3) (Some 1) in
  let w := mkWorld (mkStore {[ 5 := r ]} ∅ [] 6) ∅ in
  (applyVote no_faults 5 Upvotes w).1.1 = Resolved (Some (Some 4, Some 1)).
Proof. vm_compute. reflexivity. Qed.

(** C9. In every world the operations can reach, each recipe's upvote and
    downvote counts are non-negative integers, before and after any vote
    operation; and both counts of a newly created recipe are 0.  (The model
    spells the upvote column [vpvotes].) *)
Theorem vote_counters_nonnegative e c req w :
  reachable w ->
  counters_ok (db w)
  /\ counters_ok (db (final (handle e (Vote c) req) w))
  /\ (forall f, vpvotes (new_row f) = Some 0 /\ downvotes (new_row f) = Some 0)
  /\ (forall resp created,
        response (handle e CreateRecipe req) w = Some resp ->
        recipe resp = Created created ->
        recipes (db (final (handle e CreateRecipe req) w)) !! inst_id created
          = Some (inst_row created)
        /\ vpvotes (inst_row created) = Some 0
        /\ downvotes (inst_row created) = Some 0).
Proof.
  intros Hw. split_and!.
  - by apply reachable_counters_ok.
  - apply reachable_counters_ok. by constructor.
  - intros f. apply new_row_counters.
  - intros resp created. unfold_controller. unfold store_create.
    intros Hresp Hrec. split_cases; split_and!; try reflexivity.
    all: apply lookup_insert_eq.
Qed.

Lemma vote_counters_nonnegative_witness :
  let e := mkEnv false no_faults requiredFields in
  let empty := mkWorld (mkStore ∅ {[ 1 := Sample.ann ]} [] 1) ∅ in
  let w := final (handle e CreateRecipe Sample.plain_create) empty in
  counters_ok (db (final (handle e (Vote Upvotes) (Sample.fields 2 1 None None)) w)).
Proof.
  intros e empty w.
  assert (Hw : reachable w) by (apply reachable_step, reachable_init; reflexivity).
  exact (proj1 (proj2 (vote_counters_nonnegative e Upvotes
                         (Sample.fields 2 1 None None) w Hw))).
Defined.

(** * Further properties of the controller *)

Ltac invert_lookups :=
  repeat match goal with
    | H : _ <$> _ = Some _ |- _ => apply fmap_Some in H as (? & ? & ?)
    | H : _ <$> _ = None |- _ => apply fmap_None in H
    end;
  simplify_eq/=.

(** ** White-space normalization *)

Lemma collapse_spaces_single_spaced b s :
  single_spaced b (collapse_spaces b s) = true.
Proof.
  revert b. induction s as [|c s IH]; intros b; simpl; [done|].
  destruct (is_space c) eqn:Hc.
  - destruct b; simpl; [apply IH|]. by rewrite IH.
  - simpl. rewrite Hc. apply IH.
Qed.

Lemma collapse_spaces_fixed b s :
  single_spaced b s = true -> collapse_spaces b s = s.
Proof.
  revert b. induction s as [|c s IH]; intros b H; simpl in *; [done|].
  destruct (is_space c) eqn:Hc.
  - apply andb_prop in H as [H Hs]. apply andb_prop in H as [Hc32 Hb].
    apply N.eqb_eq in Hc32. apply negb_true_iff in Hb. subst b c.
    by rewrite (IH true Hs).
  - by rewrite (IH false H).
Qed.

Lemma single_spaced_adjacent b s i c d :
  single_spaced b s = true ->
  s !! i = Some c -> is_space c = true ->
  c = 32%N /\ (s !! S i = Some d -> is_space d = false)
  /\ (i = 0%nat -> b = false).
Proof.
  revert b i. induction s as [|x s IH]; intros b i H Hi Hc; [done|].
  simpl in H. destruct i as [|i]; simpl in *.
  - simplify_eq. rewrite Hc in H.
    apply andb_prop in H as [H Hs]. apply andb_prop in H as [Hc32 Hb].
    apply N.eqb_eq in Hc32. apply negb_true_iff in Hb.
    split_and!; [done| |done].
    intros Hd. destruct s as [|y s]; simplify_eq/=.
    destruct (is_space d) eqn:Hsd; [|done].
    apply andb_prop in Hs as [Hs _]. apply andb_prop in Hs as [_ Hs]. done.
  - destruct (is_space x).
    + apply andb_prop in H as [_ Hs].
      destruct (IH true i Hs Hi Hc) as (? & ? & _). by split_and!.
    + destruct (IH false i H Hi Hc) as (? & ? & _). by split_and!.
Qed.

Lemma collapse_spaces_visible b s :
  visible (collapse_spaces b s) = visible s.
Proof.
  revert b. induction s as [|c s IH]; intros b; simpl; [done|].
  destruct (is_space c) eqn:Hc; simpl.
  - destruct b; simpl; by rewrite IH.
  - rewrite Hc. simpl. by rewrite IH.
Qed.

Lemma collapse_spaces_nil s : collapse_spaces false s = [] -> s = [].
Proof. destruct s as [|c s]; [done|]. simpl. by destruct (is_space c). Qed.

Lemma collapse_spaces_length b s :
  (length (collapse_spaces b s) <= length s)%nat.
Proof.
  revert b. induction s as [|c s IH]; intros b; simpl; [done|].
  pose proof (IH true). pose proof (IH false).
  destruct (is_space c); [destruct b|]; simpl; lia.
Qed.

(** X1. [trimWhiteSpaces] is idempotent: normalizing a normalized text changes nothing. *)
Theorem trimWhiteSpaces_idempotent param :
  trimWhiteSpaces (Some (trimWhiteSpaces param)) = trimWhiteSpaces param.
Proof.
  unfold trimWhiteSpaces. simpl.
  apply collapse_spaces_fixed, collapse_spaces_single_spaced.
Qed.

(** X2. In a text returned by [trimWhiteSpaces] every white-space character is a
    plain space (U+0020) and is not followed by another white-space
    character. *)
Theorem trimWhiteSpaces_single_spaces param i c :
  trimWhiteSpaces param !! i = Some c ->
  is_space c = true ->
  c = 32%N
  /\ forall d, trimWhiteSpaces param !! S i = Some d -> is_space d = false.
Proof.
  intros Hi Hc. unfold trimWhiteSpaces in *.
  pose proof (collapse_spaces_single_spaced false (default [] param)) as Hs.
  split.
  - by destruct (single_spaced_adjacent _ _ _ _ c Hs Hi Hc) as (? & _).
  - intros d Hd.
    by destruct (single_spaced_adjacent _ _ _ _ d Hs Hi Hc) as (_ & H & _); auto.
Qed.

Lemma trimWhiteSpaces_single_spaces_witness :
  trimWhiteSpaces (Some [97; 32; 9; 98]%N) !! 1%nat = Some 32%N
  /\ forall d, trimWhiteSpaces (Some [97; 32; 9; 98]%N) !! 2%nat = Some d ->
               is_space d = false.
Proof.
  split; [vm_compute; reflexivity|].
  exact (proj2 (trimWhiteSpaces_single_spaces (Some [97; 32; 9; 98]%N) 1 32%N
                  ltac:(vm_compute; reflexivity) eq_refl)).
Defined.

(** X3. [trimWhiteSpaces] keeps the characters that are not white space, in
    order, never lengthens the text, and returns the empty text only for an
    empty or undefined argument: it does not trim, so a text of white space
    alone becomes one space. *)
Theorem trimWhiteSpaces_keeps_text param :
  visible (trimWhiteSpaces param) = visible (default [] param)
  /\ (length (trimWhiteSpaces param) <= length (default [] param))%nat
  /\ (trimWhiteSpaces param = [] <-> default [] param = []).
Proof.
  unfold trimWhiteSpaces. split_and!.
  - apply collapse_spaces_visible.
  - apply collapse_spaces_length.
  - split; [apply collapse_spaces_nil | by intros ->].
Qed.

(** ** Upload *)

Lemma ends_with_iff suffix s :
  ends_with suffix s = true <-> exists stem, s = stem ++ suffix.
Proof.
  unfold ends_with. rewrite bool_decide_eq_true. split.
  - intros H. exists (take (length s - length suffix) s).
    symmetry. etrans; [|apply (take_drop (length s - length suffix) s)].
    by rewrite H.
  - intros [stem ->]. rewrite length_app.
    replace (length stem + length suffix - length suffix)%nat
      with (length stem) by lia.
    by rewrite drop_app_length.
Qed.

(** X4. [fileFilter] accepts a file exactly when its original name ends with
    [.jpg], [.jpeg] or [.png] in lower case, whatever comes before the
    extension. *)
Theorem fileFilter_accepts_extension f :
  fileFilter f = true <->
  exists stem ext, ext ∈ image_extensions /\ originalname f = stem ++ ext.
Proof.
  unfold fileFilter, image_extensions. rewrite !orb_true_iff, !ends_with_iff.
  split.
  - intros [[[stem H]|[stem H]]|[stem H]]; eexists stem, _;
      (split; [|exact H]); set_solver.
  - intros (stem & ext & Hin & H).
    apply elem_of_cons in Hin as [->|Hin]; [left; left; eauto|].
    apply elem_of_cons in Hin as [->|Hin]; [left; right; eauto|].
    apply elem_of_cons in Hin as [->|Hin]; [right; eauto|].
    by apply elem_of_nil in Hin.
Qed.

(** ** Creation *)

(** X5. When [createRecipe] answers 201, exactly one row was added under an id
    that was free: it holds the normalized name, description, ingredients
    and direction of the request, the image reference, and the requester as
    owner; the response carries this row, and the other recipes, the users
    and the favorites are unchanged. *)
Theorem createRecipe_stores_normalized_fields production rejects validate req w :
  let m := createRecipe production rejects validate req in
  status <$> response m w = Some 201 ->
  exists id row,
    recipes (db w) !! id = None
    /\ recipes (db (final m w)) = <[id := row]> (recipes (db w))
    /\ response m w
       = Some (mkResponse 201 true (Fixed "New Recipe created")
                          (Created (mkInstance id row None)))
    /\ name row = trimWhiteSpaces (body_name req)
    /\ description row = trimWhiteSpaces (body_description req)
    /\ ingredients row = trimWhiteSpaces (body_ingredients req)
    /\ direction row = Some (trimWhiteSpaces (body_direction req))
    /\ imageUrl row
       = Some (match attachment req with
               | Some f => lit "recipes/" ++ filename f
               | None => lit "null"
               end)
    /\ userId row = Some (user_id req)
    /\ users (db (final m w)) = users (db w)
    /\ favorites (db (final m w)) = favorites (db w).
Proof.
  unfold_controller. unfold store_create.
  intros Hst. split_cases; eexists _, _; by split_and!.
Qed.

Lemma createRecipe_stores_normalized_fields_witness :
  exists id row,
    recipes (db (final (createRecipe false no_faults requiredFields
                                     Sample.plain_create) Sample.world))
    = <[id := row]> (recipes (db Sample.world))
    /\ name row = lit "Moi moi".
Proof.
  destruct (createRecipe_stores_normalized_fields false no_faults
              requiredFields Sample.plain_create Sample.world
              ltac:(vm_compute; reflexivity))
    as (id & row & _ & H & _ & Hname & _).
  exists id, row. split; [exact H | exact Hname].
Defined.

(** X6. When the upload step accepted a file and validation then fails,
    [createRecipe] and [modifyRecipe] leave the stored file on disk: the
    file is added and no [fs.unlink] is issued. *)
Theorem rejected_fields_leave_upload_on_disk production rejects validate req w f :
  attachment req = Some f ->
  upload_accepts req = true ->
  let created := createRecipe production rejects validate req in
  let modified := modifyRecipe production rejects validate req in
  (truthy (validate (trimWhiteSpaces (body_name req))
                    (trimWhiteSpaces (body_ingredients req))
                    (Some (trimWhiteSpaces (body_direction req))) None) = true ->
   files (final created w) = files w ∪ {[upload_path production f]}
   /\ Forall (fun e => forall p, e <> EUnlink p) (trace created w))
  /\ (truthy (validate (trimWhiteSpaces (body_name req))
                       (trimWhiteSpaces (body_ingredients req))
                       (body_direction req) (Some (param_recipeId req))) = true ->
   files (final modified w) = files w ∪ {[upload_path production f]}
   /\ Forall (fun e => forall p, e <> EUnlink p) (trace modified w)).
Proof.
  intros Hf Hup. unfold upload_accepts in Hup. rewrite Hf in Hup.
  unfold upload_path.
  split; intros Hval; unfold_controller; split_cases; try congruence;
    (split; [reflexivity | repeat constructor; intros; discriminate]).
Qed.

Lemma rejected_fields_leave_upload_on_disk_witness :
  let req := Sample.fields 1 0 None (Some Sample.png) in
  files (final (createRecipe false no_faults requiredFields req) Sample.world)
  = files Sample.world ∪ {[upload_path false Sample.png]}.
Proof.
  exact (proj1 (proj1
    (rejected_fields_leave_upload_on_disk false no_faults requiredFields
       (Sample.fields 1 0 None (Some Sample.png)) Sample.world Sample.png
       eq_refl ltac:(vm_compute; reflexivity)) ltac:(vm_compute; reflexivity))).
Defined.

(** ** Updates *)

(** X7. When [modifyRecipe] answers 201, the requester owns the recipe and only
    that row was written: name, description and ingredients are the
    normalized texts of the request, a given direction is stored as sent,
    the image reference is the new upload or else the old one, owner and
    counters are kept, and the response carries the row.  With an upload the
    new file is on disk and the old image has been unlinked. *)
Theorem modifyRecipe_success_writes_one_row production rejects validate req w :
  let m := modifyRecipe production rejects validate req in
  let id := param_recipeId req in
  status <$> response m w = Some 201 ->
  exists r row,
    recipes (db w) !! id = Some r
    /\ unary_plus (userId r) = user_id req
    /\ recipes (db (final m w)) !! id = Some row
    /\ response m w
       = Some (mkResponse 201 true (Fixed "Recipe record updated")
                          (UpdatedRows [mkInstance id row None]))
    /\ name row = trimWhiteSpaces (body_name req)
    /\ description row = trimWhiteSpaces (body_description req)
    /\ ingredients row = trimWhiteSpaces (body_ingredients req)
    /\ (forall d, body_direction req = Some d -> direction row = Some d)
    /\ imageUrl row
       = match attachment req with
         | Some f => Some (lit "recipes/" ++ filename f)
         | None => imageUrl r
         end
    /\ userId row = userId r
    /\ (viewCount row, vpvotes row, downvotes row)
       = (viewCount r, vpvotes r, downvotes r)
    /\ (forall other, other <> id ->
          recipes (db (final m w)) !! other = recipes (db w) !! other)
    /\ files (final m w)
       = match attachment req with
         | None => files w
         | Some f =>
             (files w ∪ {[upload_path production f]})
               ∖ {[client_path production (imageUrl r)]}
         end.
Proof.
  unfold upload_path. unfold_controller. unfold store_update.
  intros Hst. split_cases.
  all: eexists _, _; split_and!; try reflexivity; try (by apply Z.eqb_eq);
    try (by apply lookup_insert_eq); try congruence.
  all: first [ intros d Hd; cbn; by rewrite Hd
             | intros other Hne; by apply lookup_insert_ne ].
Qed.

Lemma modifyRecipe_success_writes_one_row_witness :
  exists row,
    recipes (db (final (modifyRecipe false no_faults requiredFields
                                     Sample.owner_update) Sample.world)) !! 5
    = Some row
    /\ imageUrl row = Some (lit "recipes/new").
Proof.
  destruct (modifyRecipe_success_writes_one_row false no_faults requiredFields
              Sample.owner_update Sample.world ltac:(vm_compute; reflexivity))
    as (r & row & _ & _ & Hrow & _ & _ & _ & _ & _ & Himg & _).
  exists row. split; [exact Hrow | exact Himg].
Defined.

(** X8. For an update with an accepted upload and fields that pass
    validation, [modifyRecipe] unlinks the freshly uploaded file exactly
    when the lookup is served, the recipe exists and either the requester
    does not own it or the owner's old image is that very file.  When the
    lookup is rejected (500) or the recipe does not exist (404) nothing is
    written to the store and the uploaded file stays on disk; for a
    stranger (401) the store is unchanged and the upload is removed again;
    for the owner the upload stays and the old image is unlinked. *)
Theorem modifyRecipe_upload_cleanup production rejects validate req w f :
  attachment req = Some f ->
  upload_accepts req = true ->
  truthy (validate (trimWhiteSpaces (body_name req))
                   (trimWhiteSpaces (body_ingredients req))
                   (body_direction req) (Some (param_recipeId req))) = false ->
  let m := modifyRecipe production rejects validate req in
  let id := param_recipeId req in
  let p := upload_path production f in
  (EUnlink p ∈ trace m w <->
     rejects (OpFindById id) = false
     /\ exists r, recipes (db w) !! id = Some r
          /\ (unary_plus (userId r) <> user_id req
              \/ client_path production (imageUrl r) = p))
  /\ (rejects (OpFindById id) = true ->
        status <$> response m w = Some 500
        /\ db (final m w) = db w
        /\ files (final m w) = files w ∪ {[p]})
  /\ (rejects (OpFindById id) = false ->
      recipes (db w) !! id = None ->
        status <$> response m w = Some 404
        /\ db (final m w) = db w
        /\ files (final m w) = files w ∪ {[p]})
  /\ (forall r, rejects (OpFindById id) = false ->
        recipes (db w) !! id = Some r ->
        unary_plus (userId r) <> user_id req ->
        status <$> response m w = Some 401
        /\ db (final m w) = db w
        /\ files (final m w) = (files w ∪ {[p]}) ∖ {[p]})
  /\ (forall r, rejects (OpFindById id) = false ->
        recipes (db w) !! id = Some r ->
        unary_plus (userId r) = user_id req ->
        files (final m w)
        = (files w ∪ {[p]}) ∖ {[client_path production (imageUrl r)]}).
Proof.
  intros Hf Hup Hval. unfold upload_accepts in Hup. rewrite Hf in Hup.
  unfold upload_path.
  split_and!.
  - unfold_controller; split_cases; try congruence; invert_lookups.
    all: split;
      [ intros Hin; find_event Hin;
        (split; [reflexivity|]); eexists; (split; [eassumption|]);
        first [ left; by apply Z.eqb_neq | right; congruence ]
      | intros (Hok & r & Hr & Hwho); simplify_eq;
        try (destruct Hwho as [Hwho|Hwho];
             [ by apply Z.eqb_neq in Hwho; congruence
             | rewrite Hwho ]);
        repeat first [left | right] ].
  - intros Hrej; unfold_controller; split_cases; try congruence;
      by split_and!.
  - intros Hok Hnone; unfold_controller; split_cases; try congruence;
      by split_and!.
  - intros r Hok Hr Hne; apply Z.eqb_neq in Hne;
      unfold_controller; split_cases; try congruence; by split_and!.
  - intros r Hok Hr Hown; apply Z.eqb_eq in Hown;
      unfold_controller; unfold store_update; split_cases; invert_lookups;
      try congruence; reflexivity.
Qed.

Lemma modifyRecipe_upload_cleanup_witness :
  let req := Sample.fields 2 5 (Some (lit "Mine now")) (Some Sample.png) in
  let m := modifyRecipe false no_faults requiredFields req in
  EUnlink (upload_path false Sample.png) ∈ trace m Sample.world
  /\ status <$> response m Sample.world = Some 401.
Proof.
  intros req m.
  destruct (modifyRecipe_upload_cleanup false no_faults requiredFields req
              Sample.world Sample.png eq_refl
              ltac:(vm_compute; reflexivity) ltac:(vm_compute; reflexivity))
    as ([_ unlinked] & _ & _ & stranger & _).
  split.
  - apply unlinked. split; [reflexivity|].
    exists Sample.jollof. split; [vm_compute; reflexivity|].
    left. vm_compute. discriminate.
  - refine (proj1 (stranger Sample.jollof eq_refl _ _)).
    + vm_compute. reflexivity.
    + vm_compute. discriminate.
Defined.

(** X9. [modifyRecipe] ends without any response and without notification
    whenever the owner's request has reached the update and then the update
    is rejected, or the query for the favoriters is rejected, or a favorite
    row has no user: these promises are not returned to the chain that
    carries the [catch].  When the update is rejected the store is
    unchanged; in the other two cases the update stays committed. *)
Theorem modifyRecipe_unanswered_when_inner_promise_fails
    production rejects validate req w r :
  let m := modifyRecipe production rejects validate req in
  let id := param_recipeId req in
  let written := updated_fields req r in
  upload_accepts req = true ->
  truthy (validate (trimWhiteSpaces (body_name req))
                   (trimWhiteSpaces (body_ingredients req))
                   (body_direction req) (Some id)) = false ->
  rejects (OpFindById id) = false ->
  recipes (db w) !! id = Some r ->
  unary_plus (userId r) = user_id req ->
  rejects (OpUpdate id written) = true
  \/ rejects (OpFavorites id) = true
  \/ project_emails (store_favorites id (db w)) = None ->
  response m w = None
  /\ responses (trace m w) = []
  /\ notifications (trace m w) = 0%nat
  /\ (rejects (OpUpdate id written) = true -> db (final m w) = db w)
  /\ (rejects (OpUpdate id written) = false ->
      EStore (OpUpdate id written) true ∈ trace m w
      /\ name <$> recipes (db (final m w)) !! id
         = Some (trimWhiteSpaces (body_name req))).
Proof.
  intros m id written Hup Hval Hfind Hr Hown Hfail. subst m id written.
  unfold upload_accepts, updated_fields, store_favorites, notifications,
    responses in *.
  apply Z.eqb_eq in Hown.
  unfold_controller. unfold store_update.
  split_cases; try congruence.
  all: try (destruct Hfail as [?|[?|?]]; congruence).
  all: split_and!; try reflexivity; try (intros ?; congruence).
  all: try (intros ?; reflexivity).
  all: intros _; split;
         [ repeat first [left | right]
         | by rewrite lookup_insert_eq ].
Qed.

Lemma modifyRecipe_unanswered_when_inner_promise_fails_witness :
  response (modifyRecipe false Sample.reject_updates requiredFields
                         Sample.owner_edit) Sample.world = None.
Proof.
  refine (proj1 (modifyRecipe_unanswered_when_inner_promise_fails
                   false Sample.reject_updates requiredFields
                   Sample.owner_edit Sample.world Sample.jollof
                   _ _ _ _ _ _)).
  - vm_compute. reflexivity.
  - vm_compute. reflexivity.
  - reflexivity.
  - vm_compute. reflexivity.
  - vm_compute. reflexivity.
  - left. reflexivity.
Defined.

(** ** Deletion *)

(** X10. When [deleteRecipe] answers 205, the requester owned the recipe, the row
    is gone, the image file it referred to has been unlinked, and the
    effects were issued in the order find, destroy, unlink, respond. *)
Theorem deleteRecipe_success_removes_recipe_and_image production rejects req w :
  let m := deleteRecipe production rejects req in
  let id := param_recipeId req in
  status <$> response m w = Some 205 ->
  exists r,
    recipes (db w) !! id = Some r
    /\ unary_plus (userId r) = user_id req
    /\ recipes (db (final m w)) = delete id (recipes (db w))
    /\ files (final m w) = files w ∖ {[client_path production (imageUrl r)]}
    /\ trace m w
       = [ EStore (OpFindById id) true;
           EStore (OpDestroy id) true;
           EUnlink (client_path production (imageUrl r));
           ERespond (mkResponse 205 true (Fixed "Recipe Deleted!") NoRecipe) ].
Proof.
  unfold_controller. unfold store_destroy. intros Hst. split_cases.
  invert_lookups. eexists; split_and!; try done. by apply Z.eqb_eq.
Qed.

Lemma deleteRecipe_success_removes_recipe_and_image_witness :
  recipes (db (final (deleteRecipe false no_faults
                        (Sample.fields 1 5 None None)) Sample.world))
  = delete 5 (recipes (db Sample.world)).
Proof.
  destruct (deleteRecipe_success_removes_recipe_and_image false no_faults
              (Sample.fields 1 5 None None) Sample.world
              ltac:(vm_compute; reflexivity))
    as (r & _ & _ & H & _).
  exact H.
Defined.

(** X11. After a delete answered 205, the recipe is not found any more: a second
    delete and a read of the same id both answer 404, and the second delete
    changes nothing. *)
Theorem deleted_recipe_is_not_found production rejects req w rejects' req' :
  let m := deleteRecipe production rejects req in
  status <$> response m w = Some 205 ->
  param_recipeId req' = param_recipeId req ->
  rejects' (OpFindById (param_recipeId req)) = false ->
  rejects' (OpFindOne (param_recipeId req)) = false ->
  recipes (db (final m w)) !! param_recipeId req = None
  /\ status <$> response (deleteRecipe production rejects' req') (final m w)
     = Some 404
  /\ status <$> response (getRecipe rejects' req') (final m w) = Some 404
  /\ db (final (deleteRecipe production rejects' req') (final m w))
     = db (final m w).
Proof.
  intros m Hst Hid Hfind Hone.
  destruct (deleteRecipe_success_removes_recipe_and_image
              production rejects req w Hst) as (r & _ & _ & Hdel & _).
  fold m in Hdel.
  assert (Hgone : recipes (db (final m w)) !! param_recipeId req = None)
    by (rewrite Hdel; apply lookup_delete_eq).
  clearbody m. clear Hst Hdel.
  split_and!; [done|..]; unfold_controller; rewrite Hid;
    rewrite ?Hfind, ?Hone; cbn; rewrite Hgone; reflexivity.
Qed.

Lemma deleted_recipe_is_not_found_witness :
  let gone := final (deleteRecipe false no_faults (Sample.fields 1 5 None None))
                    Sample.world in
  status <$> response (getRecipe no_faults (Sample.fields 2 5 None None)) gone
  = Some 404.
Proof.
  intros gone.
  exact (proj1 (proj2 (proj2
    (deleted_recipe_is_not_found false no_faults (Sample.fields 1 5 None None)
       Sample.world no_faults (Sample.fields 2 5 None None)
       ltac:(vm_compute; reflexivity) eq_refl eq_refl eq_refl)))).
Defined.

(** X12. [deleteRecipe] changes neither the store nor the files unless it answers
    205. *)
Theorem deleteRecipe_is_all_or_nothing production rejects req w :
  let m := deleteRecipe production rejects req in
  status <$> response m w <> Some 205 ->
  final m w = w.
Proof.
  unfold_controller. unfold store_destroy. intros Hst.
  split_cases; try reflexivity; try congruence; by destruct w.
Qed.

Lemma deleteRecipe_is_all_or_nothing_witness :
  final (deleteRecipe false no_faults (Sample.fields 2 5 None None))
        Sample.world
  = Sample.world.
Proof.
  apply (deleteRecipe_is_all_or_nothing false no_faults
           (Sample.fields 2 5 None None) Sample.world).
  vm_compute. discriminate.
Defined.

(** X13. [deleteRecipe] ends without any response exactly when the owner's
    request reached [recipe.destroy] and the store rejected it. *)
Theorem deleteRecipe_unanswered_iff_destroy_fails production rejects req w :
  let id := param_recipeId req in
  response (deleteRecipe production rejects req) w = None <->
  rejects (OpFindById id) = false
  /\ (exists r, recipes (db w) !! id = Some r
                /\ unary_plus (userId r) = user_id req)
  /\ rejects (OpDestroy id) = true.
Proof.
  unfold_controller. unfold store_destroy. split.
  - intros H. split_cases. invert_lookups.
    split_and!; [done| |done]. eexists. split; [done|]. by apply Z.eqb_eq.
  - intros (Hfind & (r & Hr & Hown) & Hdes). apply Z.eqb_eq in Hown.
    split_cases; congruence.
Qed.

(** ** Single reads *)

(** X14. [getRecipe] writes one response, except when the recipe is missing: then
    it writes 404 and, because the chain goes on with the value returned,
    writes 500 as well; the world is unchanged. *)
Theorem getRecipe_answers_twice_when_missing rejects req w :
  let m := getRecipe rejects req in
  let id := param_recipeId req in
  (length (responses (trace m w)) = 1%nat
   \/ length (responses (trace m w)) = 2%nat)
  /\ (length (responses (trace m w)) = 2%nat <->
      rejects (OpFindOne id) = false /\ recipes (db w) !! id = None)
  /\ (rejects (OpFindOne id) = false -> recipes (db w) !! id = None ->
      responses (trace m w)
      = [ mkResponse 404 false (NoMatchingRecipe id) NoRecipe;
          mkResponse 500 false (Fixed "Unable to fetch recipes") NoRecipe ]
      /\ final m w = w).
Proof.
  unfold_controller. unfold store_increment.
  split_and!; [ | split; [intros H | intros [H1 H2]] | intros H1 H2 ];
    split_cases; invert_lookups; try congruence; try (by split_and!);
    try (by left); try (by right); by destruct w.
Qed.

Lemma getRecipe_answers_twice_when_missing_witness :
  status <$> responses (trace (getRecipe no_faults (Sample.fields 2 7 None None))
                              Sample.world)
  = [404; 500].
Proof.
  destruct (getRecipe_answers_twice_when_missing no_faults
              (Sample.fields 2 7 None None) Sample.world) as (_ & _ & H).
  destruct (H eq_refl eq_refl) as [-> _]. reflexivity.
Defined.

(** X15. When the increment succeeds and the reload is rejected, [getRecipe]
    answers 500 although the view has been counted. *)
Theorem getRecipe_counts_view_when_reload_fails rejects req w r :
  let m := getRecipe rejects req in
  let id := param_recipeId req in
  recipes (db w) !! id = Some r ->
  rejects (OpFindOne id) = false ->
  rejects (OpIncrement id ViewCount) = false ->
  rejects (OpReload id) = true ->
  response m w
  = Some (mkResponse 500 false (Fixed "Unable to fetch recipes") NoRecipe)
  /\ viewCount <$> recipes (db (final m w)) !! id = Some (viewCount r + 1).
Proof.
  intros m id Hr H1 H2 H3. subst m id. unfold_controller.
  unfold store_increment. rewrite H1. cbn. rewrite Hr. cbn. rewrite H2. cbn.
  rewrite H3. cbn. split; [reflexivity|].
  by rewrite lookup_alter_eq, Hr.
Qed.

Lemma getRecipe_counts_view_when_reload_fails_witness :
  let broken op := match op with OpReload _ => true | _ => false end in
  viewCount <$>
    recipes (db (final (getRecipe broken (Sample.fields 2 5 None None))
                       Sample.world)) !! 5
  = Some 4.
Proof.
  intros broken.
  exact (proj2 (getRecipe_counts_view_when_reload_fails broken
                  (Sample.fields 2 5 None None) Sample.world Sample.jollof
                  eq_refl eq_refl eq_refl eq_refl)).
Defined.

(** ** Listings *)

(** X16. [getUserRecipes] never changes the world; when the store answers it
    responds 201 with exactly the recipes whose [userId] is the requester,
    each with its owner's public attributes (also when there are none: it
    never answers 404), and 500 when the query is rejected. *)
Theorem getUserRecipes_lists_own_recipes rejects req w :
  let m := getUserRecipes rejects req in
  final m w = w
  /\ (rejects (OpFindByUser (user_id req)) = true ->
      response m w
      = Some (mkResponse 500 false (Fixed "Unable to get user recipes")
                         NoRecipe))
  /\ (rejects (OpFindByUser (user_id req)) = false ->
      exists rs,
        response m w
        = Some (mkResponse 201 true (Fixed "User Recipes found") (Listing rs))
        /\ forall i, i ∈ rs <->
             exists id r, recipes (db w) !! id = Some r
                          /\ userId r = Some (user_id req)
                          /\ i = mkInstance id r (owner_of (db w) r)).
Proof.
  unfold_controller. split_and!.
  - split_cases; try reflexivity;
      match goal with |- _ = ?x => by destruct x end.
  - intros H. by split_cases.
  - intros H. split_cases. eexists. split; [reflexivity|].
    intros i. unfold user_instances. rewrite list_elem_of_filter.
    rewrite all_instances_spec. split.
    + intros (Hu & id & r & Hr & ->). by exists id, r.
    + intros (id & r & Hr & Hu & ->). split; [done|]. by exists id, r.
Qed.

Lemma getUserRecipes_lists_own_recipes_witness :
  exists rs,
    response (getUserRecipes no_faults (Sample.fields 1 0 None None))
             Sample.world
    = Some (mkResponse 201 true (Fixed "User Recipes found") (Listing rs))
    /\ mkInstance 5 Sample.jollof (owner_of Sample.store Sample.jollof) ∈ rs.
Proof.
  destruct (getUserRecipes_lists_own_recipes no_faults
              (Sample.fields 1 0 None None) Sample.world) as (_ & _ & H).
  destruct (H eq_refl) as (rs & Hresp & Hin).
  exists rs. split; [exact Hresp|].
  apply Hin. exists 5, Sample.jollof. by split_and!.
Defined.

(** ** All handlers *)

Lemma handlers_write_at_most_once e h req w :
  let s := db w in
  let s' := db (final (serve e h req) w) in
  s' = s \/ handler_write h req s s'.
Proof.
  unfold serve, handler_write, created_fields, updated_fields.
  destruct h; unfold_controller; unfold store_create, store_update,
    store_destroy, store_increment.
  all: split_cases; invert_lookups; try (by left).
  all: right; repeat eexists; try done; try (by apply Z.eqb_eq).
Qed.

(** X17. A request changes the recipe table by at most one write, of the kind of
    its handler: a create adds one row owned by the requester under a free
    id, an update replaces and a delete removes the row named by the request
    and only for its owner, a single read counts one view, and the listings
    write nothing. *)
Theorem each_request_writes_at_most_once e h req w :
  let id := param_recipeId req in
  let before := recipes (db w) in
  let after := recipes (db (final (serve e h req) w)) in
  after = before
  \/ match h with
     | HCreateRecipe =>
         exists fresh row,
           before !! fresh = None
           /\ userId row = Some (user_id req)
           /\ after = <[fresh := row]> before
     | HModifyRecipe =>
         exists r row,
           before !! id = Some r
           /\ unary_plus (userId r) = user_id req
           /\ userId row = userId r
           /\ after = <[id := row]> before
     | HDeleteRecipe =>
         exists r, before !! id = Some r
                   /\ unary_plus (userId r) = user_id req
                   /\ after = delete id before
     | HGetRecipe =>
         exists r, before !! id = Some r
                   /\ after = <[id := bump ViewCount r]> before
     | HGetUserRecipes | HGetAllRecipes => False
     end.
Proof.
  intros id before after. subst before after id.
  destruct (handlers_write_at_most_once e h req w) as [-> | Hw]; [by left|].
  right. destruct h; simpl in Hw; try done.
  - destruct Hw as (i & Hc). unfold store_create in Hc.
    destruct (recipes (db w) !! serial (db w)) eqn:Hfree; [done|].
    injection Hc as _ Hs. eexists _, _.
    split_and!; [exact Hfree| |by rewrite <- Hs]. reflexivity.
  - destruct Hw as (r & rows & Hr & Hown & Hu). unfold store_update in Hu.
    rewrite Hr in Hu. injection Hu as _ Hs. eexists r, _.
    split_and!; [done..| |by rewrite <- Hs]. reflexivity.
  - destruct Hw as (r & Hr & Hown & Hd). unfold store_destroy in Hd.
    injection Hd as Hs. exists r. split_and!; [done..|]. by rewrite <- Hs.
  - destruct Hw as (r & Hr & Hi). unfold store_increment in Hi.
    injection Hi as Hs. exists r. split; [done|]. rewrite <- Hs. simpl.
    apply map_eq. intros k. rewrite lookup_alter, lookup_insert.
    case_decide; [subst; by rewrite Hr|done].
Qed.

(** X18. No handler lets a requester change or remove a recipe of somebody else:
    after any request the row is still there and identical, except that a
    single read of it has counted one view. *)
Theorem strangers_leave_recipes_untouched e h req w id r :
  recipes (db w) !! id = Some r ->
  unary_plus (userId r) <> user_id req ->
  recipes (db (final (serve e h req) w)) !! id = Some r
  \/ (h = HGetRecipe /\ id = param_recipeId req
      /\ recipes (db (final (serve e h req) w)) !! id
         = Some (bump ViewCount r)).
Proof.
  intros Hr Hne.
  destruct (handlers_write_at_most_once e h req w) as [-> | Hw]; [by left|].
  destruct h; simpl in Hw; try done.
  - destruct Hw as (i & Hc). unfold store_create in Hc.
    destruct (recipes (db w) !! serial (db w)) eqn:Hfree; [done|].
    injection Hc as _ Hs. left. rewrite <- Hs. simpl.
    rewrite lookup_insert_ne; [done|]. intros <-. congruence.
  - destruct Hw as (r0 & rows & Hr0 & Hown & Hu). unfold store_update in Hu.
    rewrite Hr0 in Hu. injection Hu as _ Hs. left. rewrite <- Hs. simpl.
    rewrite lookup_insert_ne; [done|]. intros <-. congruence.
  - destruct Hw as (r0 & Hr0 & Hown & Hd). unfold store_destroy in Hd.
    injection Hd as Hs. left. rewrite <- Hs. simpl.
    rewrite lookup_delete_ne; [done|]. intros <-. congruence.
  - destruct Hw as (r0 & Hr0 & Hi). unfold store_increment in Hi.
    injection Hi as Hs. rewrite <- Hs. simpl. rewrite lookup_alter.
    case_decide as Heq; [right|by left].
    subst id. rewrite Hr. by split_and!.
Qed.

Lemma strangers_leave_recipes_untouched_witness :
  recipes (db (final (serve (mkEnv false no_faults requiredFields)
                            HModifyRecipe Sample.stranger_update)
                     Sample.world)) !! 5
  = Some Sample.jollof.
Proof.
  destruct (strangers_leave_recipes_untouched
              (mkEnv false no_faults requiredFields) HModifyRecipe
              Sample.stranger_update Sample.world 5 Sample.jollof
              eq_refl ltac:(discriminate)) as [H | (H & _)];
    [exact H | discriminate H].
Defined.

(** X19. No handler of the controller changes the owner or the vote counts of a
    recipe that exists before and after the request. *)
Theorem owner_and_votes_never_change e h req w id r r' :
  recipes (db w) !! id = Some r ->
  recipes (db (final (serve e h req) w)) !! id = Some r' ->
  userId r' = userId r
  /\ vpvotes r' = vpvotes r
  /\ downvotes r' = downvotes r.
Proof.
  intros Hr Hr'.
  destruct (handlers_write_at_most_once e h req w) as [Hs | Hw].
  { rewrite Hs in Hr'. by simplify_eq. }
  destruct h; simpl in Hw; try done.
  - destruct Hw as (i & Hc). unfold store_create in Hc.
    destruct (recipes (db w) !! serial (db w)) eqn:Hfree; [done|].
    injection Hc as _ Hs. rewrite <- Hs in Hr'. simpl in Hr'.
    rewrite lookup_insert_ne in Hr' by (intros <-; congruence).
    by simplify_eq.
  - destruct Hw as (r0 & rows & Hr0 & Hown & Hu). unfold store_update in Hu.
    rewrite Hr0 in Hu. injection Hu as _ Hs. rewrite <- Hs in Hr'.
    simpl in Hr'. rewrite lookup_insert in Hr'.
    case_decide; by simplify_eq.
  - destruct Hw as (r0 & Hr0 & Hown & Hd). unfold store_destroy in Hd.
    injection Hd as Hs. rewrite <- Hs in Hr'. simpl in Hr'.
    apply lookup_delete_Some in Hr' as [_ Hr']. by simplify_eq.
  - destruct Hw as (r0 & Hr0 & Hi). unfold store_increment in Hi.
    injection Hi as Hs. rewrite <- Hs in Hr'. simpl in Hr'.
    rewrite lookup_alter in Hr'. case_decide as Heq; [subst id|by simplify_eq].
    rewrite Hr in Hr'. by simplify_eq/=.
Qed.

Lemma owner_and_votes_never_change_witness :
  userId <$>
    recipes (db (final (serve (mkEnv false no_faults requiredFields)
                              HModifyRecipe Sample.owner_update)
                       Sample.world)) !! 5
  = Some (Some 1).
Proof.
  destruct (recipes (db (final (serve (mkEnv false no_faults requiredFields)
                                      HModifyRecipe Sample.owner_update)
                               Sample.world)) !! 5) as [r'|] eqn:Hr';
    [|vm_compute in Hr'; discriminate].
  simpl. f_equal.
  exact (proj1 (owner_and_votes_never_change
                  (mkEnv false no_faults requiredFields) HModifyRecipe
                  Sample.owner_update Sample.world 5 Sample.jollof r'
                  eq_refl Hr')).
Defined.

(** ** Responses *)

Lemma response_of_head t : response_of t = head (responses t).
Proof.
  induction t as [|e t IH]; [done|]. destruct e; simpl; try done.
Qed.

Ltac check_response :=
  repeat match goal with
    | |- Forall _ [] => constructor
    | |- Forall _ (_ :: _) => constructor
    | |- well_formed _ =>
        split_and!; cbn;
        [ repeat constructor
        | split; [intros ?; simplify_eq; auto | intros [?|?]; by simplify_eq]
        | intros ?; simplify_eq; reflexivity ]
    end.

Lemma serve_answers e h req w :
  let t := trace (serve e h req) w in
  Forall well_formed (responses t)
  /\ (h <> HGetRecipe -> (length (responses t) <= 1)%nat)
  /\ (match h with
      | HCreateRecipe | HGetRecipe | HGetUserRecipes => responses t <> []
      | _ => True
      end)
  /\ (forall r, response_of t = Some r -> status r ∈ [400; 401; 404] ->
        db (final (serve e h req) w) = db w).
Proof.
  unfold serve.
  destruct h; unfold_controller; unfold store_create, store_update,
    store_destroy, store_increment.
  all: split_cases.
  all: split_and!;
         [ unfold responses; cbn; check_response
         | intros ?; try done; cbn; lia
         | try done
         | let Hstatus := fresh "Hstatus" in
           intros ? ? Hstatus; simplify_eq; cbn in Hstatus; try reflexivity;
           repeat (apply elem_of_cons in Hstatus as [Hstatus|Hstatus];
                   [discriminate|]);
           by apply elem_of_nil in Hstatus ].
Qed.

(** X20. Every response a handler writes has one of the statuses 201, 205, 400,
    401, 404, 500; its [success] flag is true exactly for 201 and 205, and a
    failure carries no recipe. *)
Theorem responses_agree_with_their_status e h req w :
  Forall well_formed (responses (trace (serve e h req) w)).
Proof. apply serve_answers. Qed.

(** X21. Every handler other than [getRecipe] writes at most one response. *)
Theorem handlers_answer_at_most_once e h req w :
  h <> HGetRecipe ->
  (length (responses (trace (serve e h req) w)) <= 1)%nat.
Proof. apply serve_answers. Qed.

Lemma handlers_answer_at_most_once_witness :
  (length (responses (trace (serve (mkEnv false no_faults requiredFields)
                                   HDeleteRecipe Sample.stranger_update)
                            Sample.world)) <= 1)%nat.
Proof.
  apply handlers_answer_at_most_once. discriminate.
Defined.

(** X22. The reads [getRecipe] and [getUserRecipes] answer every request,
    whatever the store does. *)
Theorem reads_always_answer e req w :
  is_Some (response (serve e HGetRecipe req) w)
  /\ is_Some (response (serve e HGetUserRecipes req) w).
Proof.
  unfold response. rewrite !response_of_head.
  split.
  - destruct (serve_answers e HGetRecipe req w) as (_ & _ & H & _).
    simpl in H. by destruct (responses _).
  - destruct (serve_answers e HGetUserRecipes req w) as (_ & _ & H & _).
    simpl in H. by destruct (responses _).
Qed.

(** X23. When a request is answered 400, 401 or 404, nothing was written to the
    store. *)
Theorem client_errors_write_nothing e h req w r :
  response (serve e h req) w = Some r ->
  status r ∈ [400; 401; 404] ->
  db (final (serve e h req) w) = db w.
Proof. apply serve_answers. Qed.

Lemma client_errors_write_nothing_witness :
  db (final (serve (mkEnv false no_faults requiredFields) HDeleteRecipe
                   Sample.stranger_update) Sample.world)
  = db Sample.world.
Proof.
  eapply (client_errors_write_nothing (mkEnv false no_faults requiredFields)
            HDeleteRecipe Sample.stranger_update Sample.world).
  - vm_compute. reflexivity.
  - simpl. right. left.
Defined.
